(** * loggero: named loggers, filtering and the logger registry

    A shallow embedding of the logger module of loggero.  The sources hold
    two iterations of the module: the earlier one (methods [logData],
    [stream], filtering through the default logger [_global]) is embedded
    in [VariantA], the later one (methods [write], filtering through the
    module variable [_enableAll]) in [VariantB].

    Module-level variables ([_only], [_loggers], [_enableAll]) and the
    Logger objects live in an explicit state that every method threads.
    A Logger object is a heap cell; [this] is its address. *)

From Stdlib Require Import ZArith Lia.
From stdpp Require Import base option list strings gmap.

Open Scope Z_scope.

(** ** JavaScript values *)

Definition loc := nat.

#[warnings="-register-all"]
Inductive value :=
  | VUndefined
  | VNull
  | VBool (b : bool)
  | VNum (n : Z)
  | VStr (s : string)
  | VLogger (l : loc)               (* a Logger object *)
  | VBuiltin (key : string)         (* a member inherited from Object.prototype *)
  | VArguments (args : list value). (* the [arguments] object of a call *)

(** ToBoolean: [undefined], [null], [false], [0] and the empty string are
    falsy, every object is truthy. *)
Definition truthy (v : value) : bool :=
  match v with
  | VUndefined | VNull => false
  | VBool b => b
  | VNum n => negb (n =? 0)
  | VStr s => negb (String.eqb s "")
  | VLogger _ | VBuiltin _ | VArguments _ => true
  end.

(** [!a], [a || b], [a && b]: the binary operators return one of their
    operands, not a boolean. *)
Definition js_not (a : value) : value := VBool (negb (truthy a)).
Definition js_or (a b : value) : value := if truthy a then a else b.
Definition js_and (a b : value) : value := if truthy a then b else a.

(** [a <= b] on two ranks. *)
Definition js_le (a b : Z) : value := VBool (a <=? b).

(** [v === this] where [this] is the Logger at address [this]: objects are
    compared by identity. *)
Definition js_is (v : value) (this : loc) : value :=
  VBool match v with VLogger l => Nat.eqb l this | _ => false end.

(** [n || d] on ranks: [0] is the falsy number. *)
Definition num_or (n d : Z) : Z := if n =? 0 then d else n.

(** ** Objects as ordered property lists *)

Fixpoint get_field (o : list (string * value)) (key : string) : value :=
  match o with
  | [] => VUndefined
  | (k, v) :: o' => if String.eqb k key then v else get_field o' key
  end.

Definition keys (o : list (string * value)) : list string := map fst o.

(** ** Levels *)

Record Levels := { log : Z; info : Z; warn : Z; error : Z }.

(** [Object.keys(levels)]. *)
Definition Object_keys (lv : Levels) : list string :=
  ["log"; "info"; "warn"; "error"]%string.

(** [levels[key]]. *)
Definition levels_get (lv : Levels) (key : string) : option Z :=
  if String.eqb key "log" then Some (log lv)
  else if String.eqb key "info" then Some (info lv)
  else if String.eqb key "warn" then Some (warn lv)
  else if String.eqb key "error" then Some (error lv)
  else None.

(** ** Streams

    A stream is an object with a [write] method ([pipe]'s parameter is
    documented as [{Stream}]).  Streams are compared by identity:
    [Console n] are the console adapters of the module, [External id] the
    streams supplied by callers. *)
Inductive Stream :=
  | Console (n : nat)
  | External (id : nat).

#[global] Instance Stream_eq_dec : EqDecision Stream.
Proof. solve_decision. Defined.

(** What [pipe] and the constructor can be handed, and so what the field
    [_stream] can hold: the code stores the value unchecked.  Besides a
    stream it can be [undefined], [null], another primitive, or an object
    that has no [write] method ([SObject id], compared by identity). *)
Inductive stream_value :=
  | IsStream (s : Stream)
  | SUndefined
  | SNull
  | SBool (b : bool)
  | SNum (n : Z)
  | SStr (s : string)
  | SObject (id : nat).

(** [a !== b] on these values is structural inequality. *)
#[global] Instance stream_value_eq_dec : EqDecision stream_value.
Proof. solve_decision. Defined.

(** ToBoolean. *)
Definition stream_truthy (v : stream_value) : bool :=
  match v with
  | IsStream _ | SObject _ => true
  | SUndefined | SNull => false
  | SBool b => b
  | SNum n => negb (n =? 0)
  | SStr s => negb (String.eqb s "")
  end.

(** [a || b]. *)
Definition stream_or (a b : stream_value) : stream_value :=
  if stream_truthy a then a else b.

(** The receiver of a call [v.write(payload)]: the call raises a
    TypeError, here [None], unless [v] has a [write] method. *)
Definition as_stream (v : stream_value) : option Stream :=
  match v with
  | IsStream s => Some s
  | _ => None
  end.

(** ** Payload *)

(** [getDate]: [(new Date()).getTime()], the reading of the wall clock in
    epoch milliseconds; the reading is supplied by the environment. *)
Definition getDate (clock : Z) : Z := clock.

Definition createPayload (name : string) (level : Z) (data : value)
    (clock : Z) : list (string * value) :=
  [ ("date"%string, VNum (getDate clock));
    ("level"%string, VNum level);
    ("name"%string, VStr name);
    ("data"%string, data) ].

(** ** Logger objects and constructor options *)

Record Logger := {
  name : string;
  _enabled : value;
  _stream : stream_value;
  _level : Z
}.

(** The [options] argument of [create]: a field is [None] when the
    object has no such property. *)
Record Options := {
  opt_enabled : option value;
  opt_stream : option stream_value;
  opt_level : option Z
}.

Definition no_options : Options :=
  {| opt_enabled := None; opt_stream := None; opt_level := None |}.

(** Names that every plain object inherits from [Object.prototype]: the
    registry [_loggers = {}] answers them with the inherited member. *)
Definition Object_prototype_keys : list string :=
  [ "constructor"; "hasOwnProperty"; "isPrototypeOf"; "propertyIsEnumerable";
    "toLocaleString"; "toString"; "valueOf"; "__proto__";
    "__defineGetter__"; "__defineSetter__"; "__lookupGetter__";
    "__lookupSetter__" ]%string.

(** [_loggers[name]]. *)
Definition registry_get (reg : gmap string loc) (name : string) : value :=
  match reg !! name with
  | Some l => VLogger l
  | None =>
      if bool_decide (name ∈ Object_prototype_keys) then VBuiltin name
      else VUndefined
  end.

(** ** The earlier iteration: [logData], [stream], [_global] *)
Module VariantA.

Definition levels : Levels := {| log := 1; info := 1; warn := 2; error := 3 |}.

Record state := {
  heap : list Logger;
  _loggers : gmap string loc;
  _only : value;
  (* the calls [stream.write(payload)] made so far, oldest first *)
  written : list (Stream * list (string * value))
}.

Definition set_heap (st : state) (h : list Logger) : state :=
  {| heap := h; _loggers := _loggers st; _only := _only st;
     written := written st |}.

Definition set_loggers (st : state) (r : gmap string loc) : state :=
  {| heap := heap st; _loggers := r; _only := _only st;
     written := written st |}.

Definition set_only (st : state) (v : value) : state :=
  {| heap := heap st; _loggers := _loggers st; _only := v;
     written := written st |}.

Definition stream_write (st : state) (s : Stream)
    (p : list (string * value)) : state :=
  {| heap := heap st; _loggers := _loggers st; _only := _only st;
     written := written st ++ [(s, p)] |}.

Definition set_logger (st : state) (this : loc) (lg : Logger) : state :=
  set_heap st (<[this := lg]> (heap st)).

(** [getConsoleStream()] builds a new console adapter at every call; the
    one built for the Logger under construction is numbered by its
    address. *)
Definition getConsoleStream (this : loc) : Stream := Console this.

(** The result of a call as a client that catches what the call raises
    sees it: a call that raises ([None]) has assigned nothing before. *)
Definition after {A : Type} (st : state) (r : option (state * A)) : state :=
  match r with
  | Some (st', _) => st'
  | None => st
  end.

Definition new_Logger (st : state) (nm : string) (options : option Options)
    : state * loc :=
  let options := default no_options options in
  let enabled := default (VBool true) (opt_enabled options) in
  let this := length (heap st) in
  let obj :=
    {| name := nm;
       _enabled := enabled;
       _stream := stream_or (default SUndefined (opt_stream options))
                    (IsStream (getConsoleStream this));
       _level := num_or (default 0 (opt_level options)) (log levels) |} in
  (set_loggers (set_heap st (heap st ++ [obj])) (<[nm := this]> (_loggers st)),
   this).

Definition empty_state : state :=
  {| heap := []; _loggers := ∅; _only := VUndefined; written := [] |}.

(** [var _global = new Logger('global')]. *)
Definition init : state := fst (new_Logger empty_state "global" None).

Definition _global : loc := snd (new_Logger empty_state "global" None).

Definition create (st : state) (nm : string) (options : option Options)
    : state * value :=
  if truthy (registry_get (_loggers st) nm)
  then (st, registry_get (_loggers st) nm)
  else let '(st', this) := new_Logger st nm options in (st', VLogger this).

Definition find (st : state) (nm : string) : value :=
  registry_get (_loggers st) nm.

(** The methods below take the receiver [this].  They answer [None] when
    the call does not return: a TypeError is raised by a call of [write]
    on a value that has no such method (or [this] is not the address of a
    Logger, which no call on the module's surface can be). *)

Definition pipe (st : state) (this : loc) (stream : stream_value)
    : option (state * stream_value) :=
  lg ← heap st !! this;
  Some (if decide (stream ≠ _stream lg)
        then set_logger st this
               {| name := name lg; _enabled := _enabled lg;
                  _stream := stream; _level := _level lg |}
        else st,
        stream).

(** [this._stream || _global._stream]. *)
Definition stream (st : state) (this : loc) : option stream_value :=
  lg ← heap st !! this;
  if stream_truthy (_stream lg) then Some (_stream lg)
  else g ← heap st !! _global; Some (_stream g).

Definition isEnabled (st : state) (this : loc) (level : Z) : option value :=
  lg ← heap st !! this;
  g ← heap st !! _global;
  Some (if truthy (js_not (_enabled g)) then VBool false
        else js_and
               (js_and (_enabled lg)
                       (js_or (js_le (_level g) level)
                              (js_le (_level lg) level)))
               (js_or (js_not (_only st)) (js_is (_only st) this))).

Definition logData (st : state) (this : loc) (level : Z) (data : value)
    (clock : Z) : option (state * loc) :=
  let level := num_or level (info levels) in
  lg ← heap st !! this;
  en ← isEnabled st this level;
  if truthy en
  then v ← stream st this;
       s ← as_stream v;
       Some (stream_write st s (createPayload (name lg) level data clock),
             this)
  else Some (st, this).

Definition level_method (key : string) (st : state) (this : loc)
    (args : list value) (clock : Z) : option (state * loc) :=
  rank ← levels_get levels key;
  logData st this rank (VArguments args) clock.

Definition set_enabled (st : state) (this : loc) (v : value) : option state :=
  lg ← heap st !! this;
  Some (set_logger st this
          {| name := name lg; _enabled := v;
             _stream := _stream lg; _level := _level lg |}).

Definition enable (st : state) (this : loc) : option (state * loc) :=
  st' ← set_enabled st this (VBool true); Some (st', this).

Definition disable (st : state) (this : loc) : option (state * loc) :=
  st' ← set_enabled st this (VBool false); Some (st', this).

Definition only (st : state) (this : loc) : option (state * loc) :=
  _ ← heap st !! this;
  Some (if truthy (js_not (_only st)) then set_only st (VLogger this) else st,
        this).

Definition all (st : state) (this : loc) : option (state * loc) :=
  _ ← heap st !! this;
  Some (set_only st VNull, this).

(** [_global._enabled = true]. *)
Definition enableAll (st : state) (this : loc) : option (state * loc) :=
  _ ← heap st !! this;
  st' ← set_enabled st _global (VBool true); Some (st', this).

Definition disableAll (st : state) (this : loc) : option (state * loc) :=
  _ ← heap st !! this;
  st' ← set_enabled st _global (VBool false); Some (st', this).

Definition level (st : state) (this : loc) (n : Z) : option (state * loc) :=
  lg ← heap st !! this;
  Some (set_logger st this
          {| name := name lg; _enabled := _enabled lg;
             _stream := _stream lg; _level := n |},
        this).

End VariantA.

(** ** The later iteration: [write], [_enableAll] *)
Module VariantB.

(** Modelled from the spec: the table exported by [./levels], which is not
    among the sources; the spec gives the default set
    {info/log = 1, warn = 2, error = 3}. *)
Definition levels : Levels := {| log := 1; info := 1; warn := 2; error := 3 |}.

(** The object exported by [./consoleStream]. *)
Definition consoleStream : Stream := Console 0.

Record state := {
  heap : list Logger;
  _loggers : gmap string loc;
  _only : value;
  _enableAll : value;
  (* the calls [stream.write(payload)] made so far, oldest first *)
  written : list (Stream * list (string * value))
}.

Definition set_heap (st : state) (h : list Logger) : state :=
  {| heap := h; _loggers := _loggers st; _only := _only st;
     _enableAll := _enableAll st; written := written st |}.

Definition set_loggers (st : state) (r : gmap string loc) : state :=
  {| heap := heap st; _loggers := r; _only := _only st;
     _enableAll := _enableAll st; written := written st |}.

Definition set_only (st : state) (v : value) : state :=
  {| heap := heap st; _loggers := _loggers st; _only := v;
     _enableAll := _enableAll st; written := written st |}.

Definition set_enableAll (st : state) (v : value) : state :=
  {| heap := heap st; _loggers := _loggers st; _only := _only st;
     _enableAll := v; written := written st |}.

(** [stream.write(payload)]. *)
Definition stream_write (st : state) (s : Stream)
    (p : list (string * value)) : state :=
  {| heap := heap st; _loggers := _loggers st; _only := _only st;
     _enableAll := _enableAll st; written := written st ++ [(s, p)] |}.

(** Assignment to a field of the Logger at [this]. *)
Definition set_logger (st : state) (this : loc) (lg : Logger) : state :=
  set_heap st (<[this := lg]> (heap st)).

(** The result of a call as a client that catches what the call raises
    sees it: a call that raises ([None]) has assigned nothing before. *)
Definition after {A : Type} (st : state) (r : option (state * A)) : state :=
  match r with
  | Some (st', _) => st'
  | None => st
  end.

(** [Logger.prototype.defaultEnabled]. *)
Definition defaultEnabled : value := VBool false.

(** [new Logger(name, options)]: the new object is allocated at the end of
    the heap and cached in the registry under [name]. *)
Definition new_Logger (st : state) (nm : string) (options : option Options)
    : state * loc :=
  let options := default no_options options in
  let enabled := default defaultEnabled (opt_enabled options) in
  let this := length (heap st) in
  let obj :=
    {| name := nm;
       _enabled := enabled;
       _stream := stream_or (default SUndefined (opt_stream options))
                    (IsStream consoleStream);
       _level := num_or (default 0 (opt_level options)) (log levels) |} in
  (set_loggers (set_heap st (heap st ++ [obj])) (<[nm := this]> (_loggers st)),
   this).

Definition create (st : state) (nm : string) (options : option Options)
    : state * value :=
  if truthy (registry_get (_loggers st) nm)
  then (st, registry_get (_loggers st) nm)
  else let '(st', this) := new_Logger st nm options in (st', VLogger this).

Definition find (st : state) (nm : string) : value :=
  registry_get (_loggers st) nm.

(** The methods below take the receiver [this].  They answer [None] when
    the call does not return: a TypeError is raised by a call of [write]
    on a value that has no such method (or [this] is not the address of a
    Logger, which no call on the module's surface can be). *)

Definition pipe (st : state) (this : loc) (stream : stream_value)
    : option (state * stream_value) :=
  lg ← heap st !! this;
  Some (if decide (stream ≠ _stream lg)
        then set_logger st this
               {| name := name lg; _enabled := _enabled lg;
                  _stream := stream; _level := _level lg |}
        else st,
        stream).

Definition isEnabled (st : state) (this : loc) (level : Z) : option value :=
  lg ← heap st !! this;
  Some (js_and
          (js_and (js_or (_enableAll st) (_enabled lg))
                  (js_le (_level lg) level))
          (js_or (js_not (_only st)) (js_is (_only st) this))).

Definition write (st : state) (this : loc) (level : Z) (data : value)
    (clock : Z) : option (state * loc) :=
  let level := num_or level (info levels) in
  lg ← heap st !! this;
  en ← isEnabled st this level;
  if truthy en
  then s ← as_stream (_stream lg);
       Some (stream_write st s (createPayload (name lg) level data clock),
             this)
  else Some (st, this).

(** The method generated for the key [key] of [levels]; a key outside
    [Object.keys(levels)] has no method, and calling it raises. *)
Definition level_method (key : string) (st : state) (this : loc)
    (args : list value) (clock : Z) : option (state * loc) :=
  rank ← levels_get levels key;
  write st this rank (VArguments args) clock.

Definition set_enabled (st : state) (this : loc) (v : value)
    : option (state * loc) :=
  lg ← heap st !! this;
  Some (set_logger st this
          {| name := name lg; _enabled := v;
             _stream := _stream lg; _level := _level lg |},
        this).

Definition enable (st : state) (this : loc) : option (state * loc) :=
  set_enabled st this (VBool true).

Definition disable (st : state) (this : loc) : option (state * loc) :=
  set_enabled st this (VBool false).

Definition only (st : state) (this : loc) : option (state * loc) :=
  _ ← heap st !! this;
  Some (if truthy (js_not (_only st)) then set_only st (VLogger this) else st,
        this).

Definition all (st : state) (this : loc) : option (state * loc) :=
  _ ← heap st !! this;
  Some (set_only st VNull, this).

Definition enableAll (st : state) (this : loc) : option (state * loc) :=
  _ ← heap st !! this;
  Some (set_enableAll st (VBool true), this).

Definition disableAll (st : state) (this : loc) : option (state * loc) :=
  _ ← heap st !! this;
  Some (set_enableAll st (VBool false), this).

Definition level (st : state) (this : loc) (n : Z) : option (state * loc) :=
  lg ← heap st !! this;
  Some (set_logger st this
          {| name := name lg; _enabled := _enabled lg;
             _stream := _stream lg; _level := n |},
        this).

(** The state in which the module body starts, and the state it leaves:
    [var _global = new Logger('global')]. *)
Definition empty_state : state :=
  {| heap := []; _loggers := ∅; _only := VUndefined;
     _enableAll := VUndefined; written := [] |}.

Definition init : state := fst (new_Logger empty_state "global" None).

Definition _global : loc := snd (new_Logger empty_state "global" None).

(** A method call made by a client of the module, and its effect on the
    state (the value returned is dropped, what the call raises is
    caught). *)
Inductive call :=
  | CCreate (nm : string) (options : option Options)
  | CFind (nm : string)
  | CPipe (this : loc) (stream : stream_value)
  | CWrite (this : loc) (level : Z) (data : value) (clock : Z)
  | CLevelMethod (key : string) (this : loc) (args : list value) (clock : Z)
  | CIsEnabled (this : loc) (level : Z)
  | CEnable (this : loc)
  | CDisable (this : loc)
  | COnly (this : loc)
  | CAll (this : loc)
  | CEnableAll (this : loc)
  | CDisableAll (this : loc)
  | CLevel (this : loc) (n : Z).

Definition exec (st : state) (c : call) : option state :=
  match c with
  | CCreate nm options => Some (fst (create st nm options))
  | CFind nm => Some st
  | CPipe this stream => fst <$> pipe st this stream
  | CWrite this lvl data clock =>
      _ ← heap st !! this; Some (after st (write st this lvl data clock))
  | CLevelMethod key this args clock =>
      _ ← heap st !! this;
      Some (after st (level_method key st this args clock))
  | CIsEnabled this lvl => _ ← isEnabled st this lvl; Some st
  | CEnable this => fst <$> enable st this
  | CDisable this => fst <$> disable st this
  | COnly this => fst <$> only st this
  | CAll this => fst <$> all st this
  | CEnableAll this => fst <$> enableAll st this
  | CDisableAll this => fst <$> disableAll st this
  | CLevel this n => fst <$> level st this n
  end.

Fixpoint run (st : state) (cs : list call) : option state :=
  match cs with
  | [] => Some st
  | c :: cs' => st' ← exec st c; run st' cs'
  end.

End VariantB.

(** ** Vocabulary of the properties *)

(** The payloads a stream has received, oldest first. *)
Definition received (w : list (Stream * list (string * value))) (s : Stream)
    : list (list (string * value)) :=
  snd <$> filter (λ c, c.1 = s) w.

(** A record of the shape [createPayload] builds. *)
Definition payload_shape (p : list (string * value)) : Prop :=
  ∃ (clock lvl : Z) (nm : string) (data : value),
    p = [ ("date"%string, VNum clock); ("level"%string, VNum lvl);
          ("name"%string, VStr nm); ("data"%string, data) ].

Module VariantBProps.
Import VariantB.

(** The exclusivity reference is unset or designates a live Logger. *)
Definition only_ok (st : state) : Prop :=
  _only st = VUndefined ∨ _only st = VNull ∨
  ∃ l, _only st = VLogger l ∧ is_Some (heap st !! l).

(** Logger [l] holds exclusivity. *)
Definition holds_only (st : state) (l : loc) : Prop := _only st = VLogger l.

(** The filtering that applies when no exclusivity claim is active. *)
Definition normal_filter (st : state) (lg : Logger) (v : Z) : bool :=
  (truthy (_enableAll st) || truthy (_enabled lg)) && (_level lg <=? v).

(** [c] is a call of [pipe] on the Logger at [this]. *)
Definition is_pipe_on (this : loc) (c : call) : bool :=
  match c with CPipe l _ => Nat.eqb l this | _ => false end.

(** [c] is a call of [enable] on the Logger at [this], or of [enableAll]. *)
Definition is_enabling (this : loc) (c : call) : bool :=
  match c with
  | CEnable l => Nat.eqb l this
  | CEnableAll _ => true
  | _ => false
  end.

(** [create('svc', {enabled: true, level: levels.warn})] after the module
    body has run. *)
Definition svc_options : Options :=
  {| opt_enabled := Some (VBool true); opt_stream := None;
     opt_level := Some (warn levels) |}.

Definition svc_state : state := fst (create init "svc" (Some svc_options)).

(** [A = create('a', {enabled: true})], [B = create('b', {enabled: true})],
    then [A.only()]. *)
Definition on_options : Options :=
  {| opt_enabled := Some (VBool true); opt_stream := None; opt_level := None |}.

Definition ab_state : state :=
  default init
    (run init [CCreate "a" (Some on_options); CCreate "b" (Some on_options);
               COnly 1%nat]).

(** [svc.pipe(null)] on the Logger of [svc_state]. *)
Definition svc_null_state : state :=
  after svc_state (pipe svc_state 1%nat SNull).

(** The field names the payload is said to have. *)
Definition stated_payload_keys : list string :=
  ["timestamp"; "level"; "name"; "data"]%string.

End VariantBProps.

Module VariantAProps.
Import VariantA.

(** [create('svc', {level: levels.warn})] after the module body has run. *)
Definition svc_options : Options :=
  {| opt_enabled := None; opt_stream := None; opt_level := Some (warn levels) |}.

Definition svc_state : state := fst (create init "svc" (Some svc_options)).

(** [svc.pipe(null)] on the Logger of [svc_state]. *)
Definition svc_null_state : state :=
  after svc_state (pipe svc_state 1%nat SNull).

End VariantAProps.

(** ** Calls of the earlier iteration *)
Module VariantACalls.
Import VariantA.

Inductive call :=
  | ACreate (nm : string) (options : option Options)
  | AFind (nm : string)
  | APipe (this : loc) (stream : stream_value)
  | AStream (this : loc)
  | ALogData (this : loc) (level : Z) (data : value) (clock : Z)
  | ALevelMethod (key : string) (this : loc) (args : list value) (clock : Z)
  | AIsEnabled (this : loc) (level : Z)
  | AEnable (this : loc)
  | ADisable (this : loc)
  | AOnly (this : loc)
  | AAll (this : loc)
  | AEnableAll (this : loc)
  | ADisableAll (this : loc)
  | ALevel (this : loc) (n : Z).

Definition exec (st : state) (c : call) : option state :=
  match c with
  | ACreate nm options => Some (fst (create st nm options))
  | AFind nm => Some st
  | APipe this s => fst <$> pipe st this s
  | AStream this => _ ← stream st this; Some st
  | ALogData this lvl data clock =>
      _ ← heap st !! this; Some (after st (logData st this lvl data clock))
  | ALevelMethod key this args clock =>
      _ ← heap st !! this;
      Some (after st (level_method key st this args clock))
  | AIsEnabled this lvl => _ ← isEnabled st this lvl; Some st
  | AEnable this => fst <$> enable st this
  | ADisable this => fst <$> disable st this
  | AOnly this => fst <$> only st this
  | AAll this => fst <$> all st this
  | AEnableAll this => fst <$> enableAll st this
  | ADisableAll this => fst <$> disableAll st this
  | ALevel this n => fst <$> level st this n
  end.

Fixpoint run (st : state) (cs : list call) : option state :=
  match cs with
  | [] => Some st
  | c :: cs' => st' ← exec st c; run st' cs'
  end.

(** [c] sets the [_enabled] flag of the default logger: [enableAll()] on
    any Logger, or [enable()] on the default logger itself. *)
Definition is_global_enabling (c : call) : bool :=
  match c with
  | AEnableAll _ => true
  | AEnable l => Nat.eqb l _global
  | _ => false
  end.

End VariantACalls.

(** ** The console adapter, [consoleStream.js] *)
Module ConsoleStream.

Inductive console_method := console_log | console_warn | console_error.

(** [data.level === rank], a strict comparison with a number. *)
Definition level_is (data : list (string * value)) (rank : Z) : bool :=
  match get_field data "level" with
  | VNum n => n =? rank
  | _ => false
  end.

(** The [switch (data.level)] of [write]: the first matching [case] runs;
    [out] are the calls made on the console so far, oldest first. *)
Definition switch_level (lv : Levels)
    (out : list (console_method * list (string * value)))
    (data : list (string * value))
    : list (console_method * list (string * value)) :=
  if level_is data (log lv) then out ++ [(console_log, data)]
  else if level_is data (info lv) then out ++ [(console_log, data)]
  else if level_is data (warn lv) then out ++ [(console_warn, data)]
  else if level_is data (error lv) then out ++ [(console_error, data)]
  else out.

(** [write(data)]: [dest] is [None] when [typeof console] is
    ['undefined'], and then nothing happens. *)
Definition write (lv : Levels)
    (dest : option (list (console_method * list (string * value))))
    (data : list (string * value))
    : option (list (console_method * list (string * value))) :=
  match dest with
  | None => None
  | Some out => Some (switch_level lv out data)
  end.

Definition pipe (stream : Stream) : Stream := stream.

(** What the console has been asked to print once the adapter has
    received, in order, the payloads that the trace [w] sends to
    [consoleStream]. *)
Definition console_output
    (dest : option (list (console_method * list (string * value))))
    (w : list (Stream * list (string * value)))
    : option (list (console_method * list (string * value))) :=
  foldl (λ d e, if decide (e.1 = VariantB.consoleStream)
                then write VariantB.levels d e.2 else d)
        dest w.

End ConsoleStream.

(** ** Further vocabulary for the later iteration *)
Module VariantBMore.
Import VariantB.

(** The registry and the heap describe the same Loggers: an entry leads
    to a live Logger of that name, every Logger is entered under its name,
    and no entry shadows a member of [Object.prototype]. *)
Definition registry_ok (st : state) : Prop :=
  (∀ nm l, _loggers st !! nm = Some l →
     ∃ lg, heap st !! l = Some lg ∧ name lg = nm) ∧
  (∀ l lg, heap st !! l = Some lg → _loggers st !! name lg = Some l) ∧
  (∀ nm, nm ∈ Object_prototype_keys → _loggers st !! nm = None).

(** [c] is a call of [disableAll]. *)
Definition is_disableAll (c : call) : bool :=
  match c with CDisableAll _ => true | _ => false end.

(** The exclusivity gate of [isEnabled]: [!_only || _only === this]. *)
Definition only_gate (st : state) (this : loc) : bool :=
  negb (truthy (_only st)) ||
  match _only st with VLogger l => Nat.eqb l this | _ => false end.

End VariantBMore.

(** ** Truthiness of the operators *)

Lemma truthy_js_or a b : truthy (js_or a b) = truthy a || truthy b.
Proof. unfold js_or. destruct (truthy a) eqn:Ha; simpl; auto. Qed.

Lemma truthy_js_and a b : truthy (js_and a b) = truthy a && truthy b.
Proof. unfold js_and. destruct (truthy a) eqn:Ha; simpl; auto. Qed.

Lemma truthy_js_not a : truthy (js_not a) = negb (truthy a).
Proof. reflexivity. Qed.

(** A conjunction whose last operand is a boolean is either that boolean
    or a falsy operand. *)
Lemma js_and_bool_true a b :
  js_and a (VBool b) = VBool true ↔ truthy a = true ∧ b = true.
Proof.
  unfold js_and. destruct (truthy a) eqn:Ha.
  - split; [intros [= ->]; auto | intros [_ ->]; auto].
  - split; [intros ->; discriminate | intros [? _]; discriminate].
Qed.

Lemma js_and_bool_truthy a b :
  truthy (js_and a (VBool b)) = true → js_and a (VBool b) = VBool true.
Proof.
  rewrite truthy_js_and. intros [Ha Hb]%andb_true_iff.
  apply js_and_bool_true. simpl in Hb. auto.
Qed.

(** [!_only || _only === this] is a boolean: it holds when the reference
    is falsy or is [this]. *)
Lemma only_gate_bool (o : value) (this : loc) :
  js_or (js_not o) (js_is o this) =
  VBool (negb (truthy o) || match o with VLogger l => Nat.eqb l this | _ => false end).
Proof.
  unfold js_or, js_not, js_is. simpl. destruct (truthy o); reflexivity.
Qed.

Lemma only_gate_true (o : value) (this : loc) :
  negb (truthy o) || match o with VLogger l => Nat.eqb l this | _ => false end = true
  ↔ truthy o = false ∨ o = VLogger this.
Proof.
  rewrite orb_true_iff, negb_true_iff. split.
  - intros [H | H]; [auto |]. destruct o; try discriminate.
    apply Nat.eqb_eq in H. subst. auto.
  - intros [H | ->]; [auto |]. right. apply Nat.eqb_refl.
Qed.

Section VariantB_filtering.
Import VariantB VariantBProps.

(** C1. In the later iteration, [isEnabled(v)] on a Logger answers [true]
    exactly when ([_enableAll] or the Logger's own [_enabled] is set) and
    the Logger's threshold is at most [v] and ([_only] is unset or is the
    Logger itself); any other answer is falsy. *)
Theorem B_isEnabled_iff (st : state) (this : loc) (lg : Logger) (v : Z) :
  heap st !! this = Some lg →
  ∃ r, isEnabled st this v = Some r ∧
    (r = VBool true ↔
       (truthy (_enableAll st) = true ∨ truthy (_enabled lg) = true) ∧
       _level lg <= v ∧
       (truthy (_only st) = false ∨ _only st = VLogger this)) ∧
    (truthy r = true → r = VBool true).
Proof.
  intros Hl. unfold isEnabled. rewrite Hl. simpl.
  eexists. split; [reflexivity |].
  rewrite only_gate_bool. split.
  - rewrite js_and_bool_true, only_gate_true.
    unfold js_le. rewrite truthy_js_and, andb_true_iff, truthy_js_or, orb_true_iff.
    simpl. rewrite Z.leb_le. tauto.
  - apply js_and_bool_truthy.
Qed.

Lemma B_isEnabled_iff_witness :
  ∃ r, isEnabled svc_state 1%nat 2 = Some r ∧ r = VBool true.
Proof.
  destruct (B_isEnabled_iff svc_state 1%nat
              {| name := "svc"; _enabled := VBool true;
                 _stream := IsStream consoleStream; _level := 2 |} 2 eq_refl)
    as (r & Hr & Hiff & _).
  exists r. split; [exact Hr |].
  apply Hiff. simpl. repeat split; auto. lia.
Defined.

End VariantB_filtering.

Section VariantA_filtering.
Import VariantA VariantAProps.

(** C2. In the earlier iteration, [isEnabled(v)] on a Logger answers
    [true] exactly when the default logger's [_enabled] is set and (the
    default logger's threshold or the Logger's own threshold is at most
    [v]) and the Logger's own [_enabled] is set and ([_only] is unset or is
    the Logger itself); any other answer is falsy. *)
Theorem A_isEnabled_iff (st : state) (this : loc) (lg g : Logger) (v : Z) :
  heap st !! this = Some lg →
  heap st !! _global = Some g →
  ∃ r, isEnabled st this v = Some r ∧
    (r = VBool true ↔
       truthy (_enabled g) = true ∧
       (_level g <= v ∨ _level lg <= v) ∧
       truthy (_enabled lg) = true ∧
       (truthy (_only st) = false ∨ _only st = VLogger this)) ∧
    (truthy r = true → r = VBool true).
Proof.
  intros Hl Hg. unfold isEnabled. rewrite Hl. simpl. rewrite Hg. simpl.
  eexists. split; [reflexivity |].
  destruct (truthy (_enabled g)) eqn:Eg; simpl.
  - rewrite only_gate_bool. split.
    + rewrite js_and_bool_true, only_gate_true.
      rewrite truthy_js_and, andb_true_iff, truthy_js_or, orb_true_iff.
      unfold js_le. simpl. rewrite !Z.leb_le. tauto.
    + apply js_and_bool_truthy.
  - split; [| discriminate].
    split; [discriminate | intros [? _]; discriminate].
Qed.

Lemma A_isEnabled_iff_witness :
  ∃ r, isEnabled svc_state 1%nat 1 = Some r ∧ r = VBool true.
Proof.
  destruct (A_isEnabled_iff svc_state 1%nat
              {| name := "svc"; _enabled := VBool true;
                 _stream := IsStream (Console 1); _level := 2 |}
              {| name := "global"; _enabled := VBool true;
                 _stream := IsStream (Console 0); _level := 1 |} 1 eq_refl eq_refl)
    as (r & Hr & Hiff & _).
  exists r. split; [exact Hr |].
  apply Hiff. simpl. repeat split; auto. left. lia.
Defined.

(** The earlier iteration has the same exclusivity gate: while [a] holds
    exclusivity, [logData] on another Logger emits nothing. *)
Lemma A_only_silences_others (st : state) (a b : loc) (lgb g : Logger)
    (lvl : Z) (data : value) (clock : Z) :
  heap st !! b = Some lgb →
  heap st !! _global = Some g →
  _only st = VLogger a →
  b ≠ a →
  logData st b lvl data clock = Some (st, b).
Proof.
  intros Hb Hg Ha Hne. unfold logData, isEnabled. cbv zeta.
  rewrite Hb. simpl. rewrite Hg. simpl.
  destruct (negb (truthy (_enabled g))); simpl; [done |].
  rewrite only_gate_bool, Ha. simpl.
  replace (Nat.eqb a b) with false
    by (symmetry; apply Nat.eqb_neq; congruence).
  rewrite truthy_js_and. simpl. by rewrite andb_false_r.
Qed.

End VariantA_filtering.

(** ** The registry *)

(** ** What a call of [write] can do *)

Section VariantB_write_cases.
Import VariantB.

(** [write] raises, or returns [this] having changed nothing, or returns
    [this] after one call on the stream the Logger holds. *)
Lemma write_cases st this lvl data clock :
  write st this lvl data clock = None ∨
  write st this lvl data clock = Some (st, this) ∨
  ∃ lg s,
    heap st !! this = Some lg ∧ _stream lg = IsStream s ∧
    write st this lvl data clock =
      Some (stream_write st s
              (createPayload (name lg) (num_or lvl (info levels)) data clock),
            this).
Proof.
  unfold write. cbv zeta.
  destruct (heap st !! this) as [lg |] eqn:Hl; [| by left]. simpl.
  destruct (isEnabled st this _) as [en |]; [| by left]. simpl.
  destruct (truthy en); [| by right; left].
  destruct (_stream lg) eqn:Hs; simpl; try (by left).
  right. right. eexists _, _. split_and!; [reflexivity | exact Hs | reflexivity].
Qed.

Lemma after_write st this lvl data clock :
  after st (write st this lvl data clock) = st ∨
  ∃ lg s,
    heap st !! this = Some lg ∧ _stream lg = IsStream s ∧
    after st (write st this lvl data clock) =
      stream_write st s
        (createPayload (name lg) (num_or lvl (info levels)) data clock).
Proof.
  destruct (write_cases st this lvl data clock)
    as [-> | [-> | (lg & s & Hl & Hs & ->)]]; eauto 10.
Qed.

Lemma after_level_method key st this args clock :
  after st (level_method key st this args clock) = st ∨
  ∃ lg s rank,
    heap st !! this = Some lg ∧ _stream lg = IsStream s ∧
    after st (level_method key st this args clock) =
      stream_write st s
        (createPayload (name lg) (num_or rank (info levels))
           (VArguments args) clock).
Proof.
  unfold level_method. destruct (levels_get levels key) as [rank |]; simpl;
    [| by left].
  destruct (after_write st this rank (VArguments args) clock)
    as [H | (lg & s & Hl & Hs & H)]; [by left |].
  right. eauto 10.
Qed.

End VariantB_write_cases.

(** Case analysis on the outcome of a method call of the later
    iteration. *)
Ltac method_inv H :=
  unfold VariantB.pipe, VariantB.enable, VariantB.disable,
    VariantB.set_enabled, VariantB.only, VariantB.all, VariantB.enableAll,
    VariantB.disableAll, VariantB.level in H;
  cbv zeta in H; simplify_option_eq;
  repeat match goal with
  | |- context [VariantB.after ?st (VariantB.write ?st ?t ?l ?d ?c)] =>
      let E := fresh "E" in
      destruct (after_write st t l d c) as [E | (? & ? & ? & ? & E)];
      rewrite E in *; clear E
  | |- context [VariantB.after ?st (VariantB.level_method ?k ?st ?t ?a ?c)] =>
      let E := fresh "E" in
      destruct (after_level_method k st t a c)
        as [E | (? & ? & ? & ? & ? & E)];
      rewrite E in *; clear E
  end;
  repeat case_match; simplify_eq; simpl in *.

Section VariantB_registry.
Import VariantB VariantBProps.

Lemma registry_get_own (reg : gmap string loc) (nm : string) (l : loc) :
  reg !! nm = Some l → registry_get reg nm = VLogger l.
Proof. intros H. unfold registry_get. by rewrite H. Qed.

Lemma registry_get_falsy (reg : gmap string loc) (nm : string) :
  truthy (registry_get reg nm) = false → reg !! nm = None.
Proof.
  unfold registry_get. destruct (reg !! nm); [discriminate | done].
Qed.

Lemma create_loggers st nm options nm' l :
  _loggers st !! nm' = Some l →
  _loggers (fst (create st nm options)) !! nm' = Some l.
Proof.
  intros H. unfold create.
  destruct (truthy (registry_get (_loggers st) nm)) eqn:E; [done |].
  simpl. rewrite lookup_insert_ne; [done |].
  intros ->. apply registry_get_falsy in E. congruence.
Qed.

Lemma exec_loggers st c st' nm l :
  exec st c = Some st' →
  _loggers st !! nm = Some l → _loggers st' !! nm = Some l.
Proof.
  intros He H. destruct c; simpl in He;
    try (simplify_eq; by apply create_loggers);
    method_inv He; done.
Qed.

Lemma run_loggers cs : ∀ st st' nm l,
  run st cs = Some st' →
  _loggers st !! nm = Some l → _loggers st' !! nm = Some l.
Proof.
  induction cs as [| c cs IH]; intros st st' nm l Hr H; simpl in Hr.
  - by simplify_eq.
  - destruct (exec st c) as [st1 |] eqn:He; [| done]. simpl in Hr.
    eapply IH; [exact Hr |]. eapply exec_loggers; eauto.
Qed.

(** C3. When [nm] is registered, [create(nm, options2)] answers the
    registered Logger and leaves the whole state as it was: the options
    of the second call are ignored, no field of any Logger changes.  The
    entry of [nm] in the registry stays the same through every later
    sequence of calls. *)
Theorem create_registered_is_first_writer_wins
    (st : state) (nm : string) (l : loc) (options2 : option Options) :
  _loggers st !! nm = Some l →
  create st nm options2 = (st, VLogger l) ∧
  find st nm = VLogger l ∧
  ∀ cs st', run st cs = Some st' →
    _loggers st' !! nm = Some l ∧
    ∀ options3, create st' nm options3 = (st', VLogger l).
Proof.
  intros H.
  assert (Hc : ∀ s o, _loggers s !! nm = Some l → create s nm o = (s, VLogger l)).
  { intros s o Hs. unfold create. by rewrite (registry_get_own _ _ _ Hs). }
  split; [by apply Hc |].
  split; [by apply registry_get_own |].
  intros cs st' Hr.
  pose proof (run_loggers cs _ _ _ _ Hr H) as H'. split; [done |].
  intros o. by apply Hc.
Qed.

Lemma create_registered_is_first_writer_wins_witness :
  create svc_state "svc"
    (Some {| opt_enabled := Some (VBool false);
             opt_stream := Some (IsStream (External 7)); opt_level := Some 3 |})
  = (svc_state, VLogger 1%nat).
Proof.
  apply (create_registered_is_first_writer_wins svc_state "svc" 1%nat).
  reflexivity.
Defined.

End VariantB_registry.

(** ** What a call leaves alone *)

Section VariantB_frame.
Import VariantB VariantBProps.

Lemma create_heap st nm options l lg :
  heap st !! l = Some lg → heap (fst (create st nm options)) !! l = Some lg.
Proof.
  intros H. unfold create.
  destruct (truthy (registry_get (_loggers st) nm)); [done |].
  simpl. by apply lookup_app_l_Some.
Qed.

Lemma create_only st nm options :
  _only (fst (create st nm options)) = _only st.
Proof. unfold create. by destruct (truthy (registry_get (_loggers st) nm)). Qed.

Lemma create_enableAll st nm options :
  _enableAll (fst (create st nm options)) = _enableAll st.
Proof. unfold create. by destruct (truthy (registry_get (_loggers st) nm)). Qed.

(** A call keeps every Logger alive and keeps its name; only [pipe] on the
    Logger changes its stream, and only [enable] on it or [enableAll] can
    make a silent Logger speak. *)
Lemma exec_logger st c st' l lg :
  exec st c = Some st' →
  heap st !! l = Some lg →
  ∃ lg', heap st' !! l = Some lg' ∧
    name lg' = name lg ∧
    (is_pipe_on l c = false → _stream lg' = _stream lg) ∧
    (is_enabling l c = false → _enabled lg = VBool false →
     _enabled lg' = VBool false).
Proof.
  intros He H. destruct c; simpl in He.
  1: { simplify_eq. exists lg. split; [by apply create_heap | done]. }
  all: method_inv He; try (exists lg; done).
  all: match goal with
       | |- context [<[?i := ?x]> _ !! ?j] =>
           destruct (decide (i = j)) as [-> |];
           [ rewrite list_lookup_insert_eq by (by eapply lookup_lt_Some);
             eexists; split; [reflexivity |]
           | rewrite list_lookup_insert_ne by done; exists lg; done ]
       end.
  all: simplify_eq; simpl; repeat split; auto.
  all: try (rewrite Nat.eqb_refl; discriminate).
Qed.

Lemma exec_enableAll st c st' l :
  exec st c = Some st' →
  is_enabling l c = false →
  truthy (_enableAll st) = false → truthy (_enableAll st') = false.
Proof.
  intros He Hc H. destruct c; simpl in He; try discriminate.
  1: { simplify_eq. by rewrite create_enableAll. }
  all: method_inv He; done.
Qed.

Lemma exec_only st c st' :
  exec st c = Some st' → only_ok st → only_ok st'.
Proof.
  intros He H.
  assert (Hkeep : _only st' = _only st → only_ok st').
  { intros Ho. unfold only_ok in *. rewrite Ho.
    destruct H as [H | [H | (l & H & [lg Hl])]]; auto.
    destruct (exec_logger _ _ _ _ _ He Hl) as (lg' & Hl' & _).
    right. right. exists l. eauto. }
  destruct c; simpl in He.
  1: { simplify_eq. apply Hkeep. apply create_only. }
  all: method_inv He; try (by apply Hkeep).
  - right. right. eexists. split; [reflexivity |]. simpl. eauto.
  - right. left. done.
Qed.

End VariantB_frame.

(** ** Exclusivity *)

Section VariantB_only.
Import VariantB VariantBProps.

Lemma run_only cs : ∀ st st',
  run st cs = Some st' → only_ok st → only_ok st'.
Proof.
  induction cs as [| c cs IH]; intros st st' Hr H; simpl in Hr.
  - by simplify_eq.
  - destruct (exec st c) as [st1 |] eqn:He; [| done]. simpl in Hr.
    eapply IH; [exact Hr |]. eapply exec_only; eauto.
Qed.

Lemma init_only_ok : only_ok init.
Proof. by left. Qed.

Lemma holds_only_unique st a b : holds_only st a → holds_only st b → a = b.
Proof. unfold holds_only. congruence. Qed.

(** C4. [only()] on a Logger makes it the holder of exclusivity when no
    Logger holds it, and changes nothing when some Logger already does
    (no transfer).  At most one Logger holds exclusivity, and the
    reference stays unset or on a live Logger through every sequence of
    calls. *)
Theorem only_first_claim_wins (st : state) (this : loc) (lg : Logger) :
  heap st !! this = Some lg →
  only_ok st →
  ∃ st', only st this = Some (st', this) ∧
    ((∀ m, ¬ holds_only st m) → holds_only st' this ∧ st' = set_only st (VLogger this)) ∧
    (∀ m, holds_only st m → st' = st) ∧
    (holds_only st' this ↔ (∀ m, holds_only st m → m = this)) ∧
    (∀ cs st2, run st cs = Some st2 →
       only_ok st2 ∧ ∀ a b, holds_only st2 a → holds_only st2 b → a = b).
Proof.
  intros Hl Hok.
  assert (Hruns : ∀ cs st2, run st cs = Some st2 →
            only_ok st2 ∧ ∀ a b, holds_only st2 a → holds_only st2 b → a = b).
  { intros cs st2 Hr. split; [by eapply run_only | ].
    intros a b. apply holds_only_unique. }
  unfold only. rewrite Hl. simpl.
  eexists. split; [reflexivity |].
  unfold holds_only.
  destruct Hok as [Ho | [Ho | (m & Ho & _)]]; rewrite Ho; simpl.
  - split_and!; auto; try discriminate.
    split; [intros _ m; discriminate | done].
  - split_and!; auto; try discriminate.
    split; [intros _ m; discriminate | done].
  - split; [intros Hn; by destruct (Hn m) |].
    split; [done |]. split; [| apply Hruns].
    rewrite Ho. split.
    + intros [= ->] m' [= ->]. done.
    + intros H. f_equal. auto.
Qed.

Lemma only_first_claim_wins_witness :
  only_ok svc_state ∧
  ∃ st', only svc_state 1%nat = Some (st', 1%nat) ∧ holds_only st' 1%nat.
Proof.
  split; [by left |].
  destruct (only_first_claim_wins svc_state 1%nat
              {| name := "svc"; _enabled := VBool true;
                 _stream := IsStream consoleStream; _level := 2 |}
              eq_refl (or_introl eq_refl))
    as (st' & Hcall & Hfree & _).
  exists st'. split; [exact Hcall |].
  apply Hfree. intros m. discriminate.
Defined.

End VariantB_only.

(** ** Writing *)

Section VariantB_write.
Import VariantB VariantBProps.

Lemma isEnabled_truthy st this lg v :
  heap st !! this = Some lg →
  ∃ r, isEnabled st this v = Some r ∧
    truthy r =
      normal_filter st lg v &&
      (negb (truthy (_only st)) ||
       match _only st with VLogger l => Nat.eqb l this | _ => false end).
Proof.
  intros Hl. unfold isEnabled. rewrite Hl. simpl.
  eexists. split; [reflexivity |].
  rewrite only_gate_bool, !truthy_js_and, truthy_js_or. reflexivity.
Qed.

Lemma write_eq st this lg lvl data clock en :
  heap st !! this = Some lg →
  isEnabled st this (num_or lvl (info levels)) = Some en →
  write st this lvl data clock =
    if truthy en
    then s ← as_stream (_stream lg);
         Some (stream_write st s
                 (createPayload (name lg) (num_or lvl (info levels)) data clock),
               this)
    else Some (st, this).
Proof.
  intros Hl He. unfold write. cbv zeta. rewrite Hl. simpl in *. by rewrite He.
Qed.

Lemma levels_get_keys key :
  key ∈ Object_keys levels →
  ∃ rank, levels_get levels key = Some rank ∧ num_or rank (info levels) = rank.
Proof.
  intros H. apply list_elem_of_In in H. simpl in H.
  destruct H as [<- | [<- | [<- | [<- | []]]]]; eexists; split; reflexivity.
Qed.




(** C5. While Logger [a] holds exclusivity, [write] and the level methods
    on any other Logger [b] emit nothing, whatever the flags and the
    threshold of [b].  [all()] on any Logger sets the reference to [null],
    whoever held it, and afterwards every Logger is filtered by the enable
    flags and its threshold alone. *)
Theorem only_silences_others_all_restores
    (st : state) (a b : loc) (lgb : Logger) :
  heap st !! b = Some lgb →
  holds_only st a →
  b ≠ a →
  (∀ lvl data clock, write st b lvl data clock = Some (st, b)) ∧
  (∀ key args clock, key ∈ Object_keys levels →
     level_method key st b args clock = Some (st, b)) ∧
  (∀ this lgt, heap st !! this = Some lgt →
     all st this = Some (set_only st VNull, this) ∧
     ∀ l lg v data clock, heap st !! l = Some lg →
       ∃ r, isEnabled (set_only st VNull) l v = Some r ∧
         truthy r = normal_filter st lg v ∧
         write (set_only st VNull) l v data clock =
           if normal_filter st lg (num_or v (info levels))
           then s ← as_stream (_stream lg);
                Some (stream_write (set_only st VNull) s
                        (createPayload (name lg) (num_or v (info levels))
                           data clock),
                      l)
           else Some (set_only st VNull, l)).
Proof.
  intros Hb Ha Hne. unfold holds_only in Ha.
  assert (Hw : ∀ lvl data clock, write st b lvl data clock = Some (st, b)).
  { intros lvl data clock.
    destruct (isEnabled_truthy st b lgb (num_or lvl (info levels)) Hb)
      as (en & Hen & Hv).
    rewrite (write_eq _ _ _ _ _ _ _ Hb Hen), Hv, Ha. simpl.
    replace (Nat.eqb a b) with false
      by (symmetry; apply Nat.eqb_neq; congruence).
    by rewrite andb_false_r. }
  split; [exact Hw |]. split.
  - intros key args clock Hk.
    destruct (levels_get_keys key Hk) as (rank & Hr & _).
    unfold level_method. rewrite Hr. simpl. apply Hw.
  - intros this lgt Ht. split; [unfold all; by rewrite Ht |].
    intros l lg v data clock Hl.
    assert (Hl' : heap (set_only st VNull) !! l = Some lg) by exact Hl.
    destruct (isEnabled_truthy _ l lg v Hl') as (r & Hr & Hv).
    exists r. split; [exact Hr |].
    split; [rewrite Hv; simpl; by rewrite andb_true_r |].
    destruct (isEnabled_truthy _ l lg (num_or v (info levels)) Hl')
      as (r' & Hr' & Hv').
    rewrite (write_eq _ _ _ _ _ _ _ Hl' Hr'), Hv'. simpl.
    by rewrite andb_true_r.
Qed.

Lemma only_silences_others_all_restores_witness :
  holds_only ab_state 1%nat ∧
  write ab_state 2%nat 3 (VArguments [VStr "x"]) 42 = Some (ab_state, 2%nat).
Proof.
  split; [reflexivity |].
  apply (only_silences_others_all_restores ab_state 1%nat 2%nat
           {| name := "b"; _enabled := VBool true;
              _stream := IsStream consoleStream; _level := 1 |});
    [reflexivity | reflexivity | lia].
Defined.

(** Scenario: with [a] exclusive, [a.error('y')] still emits. *)
Example holder_still_emits :
  written <$> (fst <$> level_method "error" ab_state 1%nat [VStr "y"] 42) =
  Some [(consoleStream,
         createPayload "a" 3 (VArguments [VStr "y"]) 42)].
Proof. reflexivity. Qed.

End VariantB_write.

(** ** Payloads *)

Section VariantB_payload.
Import VariantB VariantBProps.

Lemma createPayload_shape nm lvl data clock :
  payload_shape (createPayload nm lvl data clock).
Proof. by exists clock, lvl, nm, data. Qed.

Lemma exec_written st c st' :
  exec st c = Some st' →
  Forall (λ e, payload_shape e.2) (written st) →
  Forall (λ e, payload_shape e.2) (written st').
Proof.
  intros He H. destruct c; simpl in He.
  1: { simplify_eq. unfold create.
       by destruct (truthy (registry_get (_loggers st) nm)). }
  all: method_inv He; try done.
  all: apply Forall_app; split; [done |].
  all: apply Forall_singleton; apply createPayload_shape.
Qed.

Lemma run_written cs : ∀ st st',
  run st cs = Some st' →
  Forall (λ e, payload_shape e.2) (written st) →
  Forall (λ e, payload_shape e.2) (written st').
Proof.
  induction cs as [| c cs IH]; intros st st' Hr H; simpl in Hr.
  - by simplify_eq.
  - destruct (exec st c) as [st1 |] eqn:He; [| done]. simpl in Hr.
    eapply IH; [exact Hr |]. eapply exec_written; eauto.
Qed.

(** C6, as the code has it.  A [write] that passes the filter delivers to
    the Logger's stream one record whose fields are, in this order,
    [date] (the clock reading, an integer of epoch milliseconds), [level]
    (the rank of the call, the rank of [info] when the argument is [0]),
    [name] (the name of the emitting Logger) and [data] (exactly the value
    the caller passed); there is no field [timestamp].  Every payload
    delivered through any sequence of calls has these four fields. *)
Theorem write_payload_fields (st : state) (this : loc) (lg : Logger)
    (s : Stream) (lvl : Z) (data : value) (clock : Z) (en : value) :
  heap st !! this = Some lg →
  _stream lg = IsStream s →
  isEnabled st this (num_or lvl (info levels)) = Some en →
  truthy en = true →
  (∃ st' p,
     write st this lvl data clock = Some (st', this) ∧
     written st' = written st ++ [(s, p)] ∧
     keys p = ["date"; "level"; "name"; "data"]%string ∧
     get_field p "date" = VNum clock ∧
     get_field p "level" = VNum (num_or lvl (info levels)) ∧
     get_field p "name" = VStr (name lg) ∧
     get_field p "data" = data ∧
     get_field p "timestamp" = VUndefined) ∧
  (∀ cs st2, run init cs = Some st2 →
     ∀ s p, (s, p) ∈ written st2 →
       payload_shape p ∧ keys p = ["date"; "level"; "name"; "data"]%string).
Proof.
  intros Hl Hs Hen Ht. split.
  - rewrite (write_eq _ _ _ _ _ _ _ Hl Hen), Ht, Hs. simpl.
    eexists _, _. split; [reflexivity |]. split; [reflexivity |].
    split_and!; reflexivity.
  - intros cs st2 Hr s' p Hin.
    assert (H : Forall (λ e, payload_shape e.2) (written st2)).
    { eapply run_written; [exact Hr |]. constructor. }
    rewrite Forall_forall in H. specialize (H _ Hin). simpl in H.
    split; [exact H |].
    destruct H as (c & l & n & d & ->). reflexivity.
Qed.

Lemma write_payload_fields_witness :
  ∃ st' p,
    write svc_state 1%nat 2 (VStr "b") 42 = Some (st', 1%nat) ∧
    written st' = written svc_state ++ [(consoleStream, p)] ∧
    get_field p "date" = VNum 42.
Proof.
  destruct (write_payload_fields svc_state 1%nat
              {| name := "svc"; _enabled := VBool true;
                 _stream := IsStream consoleStream; _level := 2 |}
              consoleStream 2 (VStr "b") 42 (VBool true)
              eq_refl eq_refl eq_refl eq_refl)
    as [(st' & p & Hw & Hout & _ & Hdate & _) _].
  exists st', p. split; [exact Hw |]. split; [exact Hout | exact Hdate].
Defined.

(** C6, as stated, fails: the record delivered by
    [svc.write(levels.warn, 'b')] has no field [timestamp]; its first
    field is [date]. *)
Lemma payload_has_no_timestamp_field :
  ∃ st' p,
    write svc_state 1%nat 2 (VStr "b") 42 = Some (st', 1%nat) ∧
    written st' = [(consoleStream, p)] ∧
    keys p ≠ stated_payload_keys ∧
    get_field p "timestamp" = VUndefined ∧
    get_field p "date" = VNum 42.
Proof.
  eexists _, _. split; [reflexivity |]. split; [reflexivity |].
  split; [discriminate |]. split; reflexivity.
Qed.

(** C8. Each method generated from a key of [levels] passes its whole
    argument list, in order and in number, as the [data] of the payload:
    the call is [write(levels[key], arguments)]. *)
Theorem level_method_forwards_arguments
    (key : string) (st : state) (this : loc) (lg : Logger)
    (args : list value) (clock : Z) :
  key ∈ Object_keys levels →
  heap st !! this = Some lg →
  ∃ rank en,
    levels_get levels key = Some rank ∧
    level_method key st this args clock =
      write st this rank (VArguments args) clock ∧
    isEnabled st this rank = Some en ∧
    level_method key st this args clock =
      (if truthy en
       then s ← as_stream (_stream lg);
            Some (stream_write st s
                    (createPayload (name lg) rank (VArguments args) clock),
                  this)
       else Some (st, this)) ∧
    get_field (createPayload (name lg) rank (VArguments args) clock) "data"
      = VArguments args.
Proof.
  intros Hk Hl.
  destruct (levels_get_keys key Hk) as (rank & Hr & Hnz).
  destruct (isEnabled_truthy st this lg rank Hl) as (en & Hen & _).
  exists rank, en. split; [exact Hr |].
  assert (Hm : level_method key st this args clock =
               write st this rank (VArguments args) clock).
  { unfold level_method. by rewrite Hr. }
  split; [exact Hm |]. split; [exact Hen |].
  split; [| reflexivity].
  rewrite Hm. rewrite <- Hnz in Hen.
  rewrite (write_eq _ _ _ _ _ _ _ Hl Hen). by rewrite Hnz.
Qed.

Lemma level_method_forwards_arguments_witness :
  ∃ st',
    level_method "warn" svc_state 1%nat [VStr "x"; VStr "y"] 42
      = Some (st', 1%nat) ∧
    ∃ p, written st' = [(consoleStream, p)] ∧
      get_field p "data" = VArguments [VStr "x"; VStr "y"] ∧
      get_field p "level" = VNum 2.
Proof.
  destruct (level_method_forwards_arguments "warn" svc_state 1%nat
              {| name := "svc"; _enabled := VBool true;
                 _stream := IsStream consoleStream; _level := 2 |}
              [VStr "x"; VStr "y"] 42)
    as (rank & en & Hr & _ & Hen & Hm & _).
  - apply list_elem_of_In. simpl. auto.
  - reflexivity.
  - vm_compute in Hr, Hen. simplify_eq. rewrite Hm.
    eexists. split; [reflexivity |].
    eexists. split; [reflexivity |]. split; reflexivity.
Defined.

End VariantB_payload.

(** ** Sequences of calls *)

Section VariantB_runs.
Import VariantB VariantBProps.

Lemma run_logger cs : ∀ st st' l lg,
  run st cs = Some st' →
  heap st !! l = Some lg →
  ∃ lg', heap st' !! l = Some lg' ∧
    name lg' = name lg ∧
    (existsb (is_pipe_on l) cs = false → _stream lg' = _stream lg) ∧
    (existsb (is_enabling l) cs = false → _enabled lg = VBool false →
     _enabled lg' = VBool false).
Proof.
  induction cs as [| c cs IH]; intros st st' l lg Hr Hl; simpl in Hr.
  - simplify_eq. exists lg. done.
  - destruct (exec st c) as [st1 |] eqn:He; [| done]. simpl in Hr.
    destruct (exec_logger _ _ _ _ _ He Hl) as (lg1 & Hl1 & Hn1 & Hs1 & He1).
    destruct (IH _ _ _ _ Hr Hl1) as (lg' & Hl' & Hn' & Hs' & He').
    exists lg'. split; [exact Hl' |]. split; [congruence |].
    simpl. split; intros [Hc Hcs]%orb_false_iff.
    + rewrite Hs', Hs1; auto.
    + intros Hv. apply He'; auto.
Qed.

Lemma run_enableAll cs : ∀ st st' l,
  run st cs = Some st' →
  existsb (is_enabling l) cs = false →
  truthy (_enableAll st) = false → truthy (_enableAll st') = false.
Proof.
  induction cs as [| c cs IH]; intros st st' l Hr Hcs H; simpl in Hr.
  - by simplify_eq.
  - destruct (exec st c) as [st1 |] eqn:He; [| done]. simpl in Hr.
    simpl in Hcs. apply orb_false_iff in Hcs as [Hc Hcs].
    eapply IH; [exact Hr | exact Hcs |]. eapply exec_enableAll; eauto.
Qed.

Lemma received_snoc_ne w (s s' : Stream) p :
  s' ≠ s → received (w ++ [(s', p)]) s = received w s.
Proof.
  intros Hne. unfold received.
  rewrite filter_app, filter_cons_False by done.
  rewrite filter_nil, app_nil_r. done.
Qed.

Lemma received_snoc_eq w (s : Stream) p :
  received (w ++ [(s, p)]) s = received w s ++ [p].
Proof.
  unfold received.
  rewrite filter_app, filter_cons_True by done.
  rewrite filter_nil, fmap_app. done.
Qed.

(** C7. [pipe(new)] with a stream other than the current one answers
    [new]; from then on, whatever calls come in between (other than a
    further [pipe] on the same Logger), a [write] on the Logger that passes
    the filter is one call of [new.write], and the stream attached before,
    like every stream other than [new], receives nothing from it. *)
Theorem pipe_redirects_writes
    (st : state) (this : loc) (lg : Logger) (new : Stream) :
  heap st !! this = Some lg →
  IsStream new ≠ _stream lg →
  ∃ st1,
    pipe st this (IsStream new) = Some (st1, IsStream new) ∧
    ∀ cs st2,
      existsb (is_pipe_on this) cs = false →
      run st1 cs = Some st2 →
      ∀ lvl data clock, ∃ st3 en,
        write st2 this lvl data clock = Some (st3, this) ∧
        isEnabled st2 this (num_or lvl (info levels)) = Some en ∧
        written st3 =
          (if truthy en
           then written st2 ++
                  [(new, createPayload (name lg) (num_or lvl (info levels))
                           data clock)]
           else written st2) ∧
        (∀ old, _stream lg = IsStream old ∨ old ≠ new →
           received (written st3) old = received (written st2) old) ∧
        received (written st3) new =
          (if truthy en
           then received (written st2) new ++
                  [createPayload (name lg) (num_or lvl (info levels))
                     data clock]
           else received (written st2) new).
Proof.
  intros Hl Hne. unfold pipe. rewrite Hl. simpl.
  rewrite decide_True by done.
  eexists. split; [reflexivity |].
  intros cs st2 Hcs Hr lvl data clock.
  set (lg1 := {| name := name lg; _enabled := _enabled lg;
                 _stream := IsStream new; _level := _level lg |}).
  assert (Hl1 : heap (set_logger st this lg1) !! this = Some lg1).
  { simpl. apply list_lookup_insert_eq. by eapply lookup_lt_Some. }
  destruct (run_logger cs _ _ _ _ Hr Hl1) as (lg2 & Hl2 & Hn2 & Hs2 & _).
  specialize (Hs2 Hcs). simpl in Hn2, Hs2.
  destruct (isEnabled_truthy st2 this lg2 (num_or lvl (info levels)) Hl2)
    as (en & Hen & _).
  assert (Hold : ∀ old, _stream lg = IsStream old ∨ old ≠ new → new ≠ old).
  { intros old [Ho | Ho] ->; [by rewrite Ho in Hne | done]. }
  pose proof (write_eq _ _ _ lvl data clock _ Hl2 Hen) as Hw.
  rewrite Hs2, Hn2 in Hw. simpl in Hw.
  destruct (truthy en) eqn:Et; eexists _, en; (split; [exact Hw |]);
    (split; [exact Hen |]); rewrite Et; simpl; split_and!; try done.
  - intros old Ho. apply received_snoc_ne. by apply Hold.
  - apply received_snoc_eq.
Qed.

Lemma pipe_redirects_writes_witness :
  ∃ st1 st2 st3,
    pipe svc_state 1%nat (IsStream (External 7))
      = Some (st1, IsStream (External 7)) ∧
    run st1 [CEnableAll 0%nat; CWrite 0%nat 1 (VStr "g") 41] = Some st2 ∧
    write st2 1%nat 2 (VStr "b") 42 = Some (st3, 1%nat) ∧
    written st3 =
      [(consoleStream, createPayload "global" 1 (VStr "g") 41);
       (External 7, createPayload "svc" 2 (VStr "b") 42)].
Proof.
  destruct (pipe_redirects_writes svc_state 1%nat
              {| name := "svc"; _enabled := VBool true;
                 _stream := IsStream consoleStream; _level := 2 |}
              (External 7) eq_refl)
    as (st1 & Hp & Hafter); [discriminate |].
  exists st1.
  destruct (run st1 [CEnableAll 0%nat; CWrite 0%nat 1 (VStr "g") 41])
    as [st2 |] eqn:Hr;
    [| vm_compute in Hp; simplify_eq; vm_compute in Hr; discriminate].
  destruct (Hafter [CEnableAll 0%nat; CWrite 0%nat 1 (VStr "g") 41] st2
              eq_refl Hr 2 (VStr "b") 42)
    as (st3 & en & Hw & Hen & Hout & _).
  exists st2, st3. split; [exact Hp |]. split; [reflexivity |].
  split; [exact Hw |]. rewrite Hout.
  vm_compute in Hp. simplify_eq. vm_compute in Hr. simplify_eq.
  vm_compute in Hen. simplify_eq. reflexivity.
Defined.

(** C10. In the later iteration a Logger created without an own [enabled]
    option takes [defaultEnabled], which is [false]; while [_enableAll] is
    unset, neither [write] nor a level method on it emits anything, at any
    level, through every sequence of calls that contains neither
    [enable()] on it nor [enableAll()]. *)
Theorem fresh_logger_is_silent
    (st : state) (nm : string) (options : option Options) :
  truthy (registry_get (_loggers st) nm) = false →
  opt_enabled (default no_options options) = None →
  defaultEnabled = VBool false ∧
  ∃ st1 this lg,
    create st nm options = (st1, VLogger this) ∧
    heap st1 !! this = Some lg ∧
    name lg = nm ∧
    _enabled lg = defaultEnabled ∧
    (truthy (_enableAll st) = false →
     ∀ cs st2,
       existsb (is_enabling this) cs = false →
       run st1 cs = Some st2 →
       ∀ lvl data clock,
         write st2 this lvl data clock = Some (st2, this) ∧
         ∀ key args, key ∈ Object_keys levels →
           level_method key st2 this args clock = Some (st2, this)).
Proof.
  intros Hfree Hopt. split; [reflexivity |].
  unfold create. rewrite Hfree. simpl.
  eexists _, _, _. split; [reflexivity |].
  split; [by apply list_lookup_middle |].
  split; [reflexivity |]. simpl. rewrite Hopt. simpl.
  split; [reflexivity |].
  intros Hall cs st2 Hcs Hr.
  match type of Hr with run ?s _ = _ => set (st1 := s) in * end.
  assert (Hl1 : heap st1 !! length (heap st) =
                Some {| name := nm; _enabled := VBool false;
                        _stream := stream_or
                                     (default SUndefined
                                        (opt_stream (default no_options options)))
                                     (IsStream consoleStream);
                        _level := num_or
                                    (default 0 (opt_level (default no_options options)))
                                    1 |}).
  { subst st1. simpl. by apply list_lookup_middle. }
  destruct (run_logger cs _ _ _ _ Hr Hl1) as (lg2 & Hl2 & _ & _ & Hoff).
  specialize (Hoff Hcs eq_refl).
  assert (Hall2 : truthy (_enableAll st2) = false).
  { eapply run_enableAll; [exact Hr | exact Hcs | exact Hall]. }
  assert (Hw : ∀ lvl data clock, write st2 (length (heap st)) lvl data clock
                                 = Some (st2, length (heap st))).
  { intros lvl data clock.
    destruct (isEnabled_truthy st2 _ lg2 (num_or lvl (info levels)) Hl2)
      as (en & Hen & Hv).
    rewrite (write_eq _ _ _ _ _ _ _ Hl2 Hen), Hv.
    unfold normal_filter. by rewrite Hall2, Hoff. }
  intros lvl data clock. split; [apply Hw |].
  intros key args Hk.
  destruct (levels_get_keys key Hk) as (rank & Hrk & _).
  unfold level_method. rewrite Hrk. simpl. apply Hw.
Qed.

Lemma fresh_logger_is_silent_witness :
  ∃ st1 st2,
    create init "fresh" None = (st1, VLogger 1%nat) ∧
    run st1 [CLevel 1%nat 1; CEnable 0%nat; COnly 1%nat] = Some st2 ∧
    write st2 1%nat 3 (VStr "e") 42 = Some (st2, 1%nat).
Proof.
  destruct (fresh_logger_is_silent init "fresh" None eq_refl eq_refl)
    as (_ & st1 & this & lg & Hc & _ & _ & _ & Hquiet).
  assert (Heq : (st1, VLogger this) =
                (fst (create init "fresh" None), VLogger 1%nat))
    by (rewrite <- Hc; reflexivity).
  simplify_eq.
  eexists _, _. split; [reflexivity |]. split; [reflexivity |].
  exact (proj1 (Hquiet eq_refl [CLevel 1%nat 1; CEnable 0%nat; COnly 1%nat]
                  _ eq_refl eq_refl 3 (VStr "e") 42)).
Defined.

(** After [enable()] the same Logger emits. *)
Example fresh_logger_speaks_once_enabled :
  written <$>
    (run (fst (create init "fresh" None))
       [CEnable 1%nat; CWrite 1%nat 3 (VStr "e") 42]) =
  Some [(consoleStream, createPayload "fresh" 3 (VStr "e") 42)].
Proof. reflexivity. Qed.

End VariantB_runs.

(** ** The registry and the heap *)

Section VariantB_registry_heap.
Import VariantB VariantBProps VariantBMore.

Lemma registry_get_falsy_inv (reg : gmap string loc) (nm : string) :
  truthy (registry_get reg nm) = false ↔
  reg !! nm = None ∧ nm ∉ Object_prototype_keys.
Proof.
  unfold registry_get. destruct (reg !! nm).
  - split; [discriminate | intros [? _]; discriminate].
  - case_bool_decide; simpl; split; try done. intros [_ ?]. done.
Qed.

(** A call either constructs one Logger under a new name, or rewrites at
    most one Logger in place without renaming it. *)
Lemma exec_shape st c st' :
  exec st c = Some st' →
  (∃ nm obj,
     _loggers st !! nm = None ∧ (nm ∉ Object_prototype_keys) ∧
     name obj = nm ∧ heap st' = heap st ++ [obj] ∧
     _loggers st' = <[nm := length (heap st)]> (_loggers st)) ∨
  (_loggers st' = _loggers st ∧
   (heap st' = heap st ∨
    ∃ this lg lg',
      heap st !! this = Some lg ∧ name lg' = name lg ∧
      heap st' = <[this := lg']> (heap st))).
Proof.
  intros He. destruct c; simpl in He.
  1: { simplify_eq. unfold create.
       destruct (truthy (registry_get (_loggers st) nm)) eqn:E.
       - right. auto.
       - apply registry_get_falsy_inv in E as [E1 E2].
         left. simpl. eexists _, _. split_and!; try done. reflexivity. }
  all: method_inv He; right; (split; [done |]); try (by left).
  all: right; eexists _, _, _;
    refine (conj _ (conj _ eq_refl)); [eassumption | reflexivity].
Qed.

Lemma exec_registry_ok st c st' :
  exec st c = Some st' → registry_ok st → registry_ok st'.
Proof.
  intros He (Hreg & Hheap & Hproto).
  destruct (exec_shape _ _ _ He)
    as [(nm & obj & Hnone & Hnp & Hname & Hh & Hr)
       | (Hr & [Hh | (this & lg & lg' & Hl & Hname & Hh)])];
    unfold registry_ok; rewrite Hr, Hh.
  - split_and!.
    + intros nm' l. destruct (decide (nm = nm')) as [<- | Hne].
      * rewrite lookup_insert_eq. intros [= <-]. exists obj.
        split; [by apply list_lookup_middle | done].
      * rewrite lookup_insert_ne by done. intros H.
        destruct (Hreg _ _ H) as (lg & Hlg & Hn). exists lg.
        split; [by apply lookup_app_l_Some | done].
    + intros l lg Hlg. apply lookup_app_Some in Hlg as [Hlg | [Hlen Hlg]].
      * pose proof (Hheap _ _ Hlg) as H.
        rewrite lookup_insert_ne; [done |]. intros Heq.
        unfold loc in *. congruence.
      * destruct (l - length (heap st))%nat as [| k] eqn:Ek; simpl in Hlg;
          [| by rewrite lookup_nil in Hlg].
        simplify_eq. replace l with (length (heap st)) by lia.
        apply lookup_insert_eq.
    + intros nm' Hin. rewrite lookup_insert_ne; [by apply Hproto |].
      intros Heq. by subst nm'.
  - done.
  - split_and!; [| | done].
    + intros nm l H. destruct (Hreg _ _ H) as (x & Hx & Hn).
      destruct (decide (this = l)) as [-> |].
      * exists lg'. rewrite list_lookup_insert_eq by (by eapply lookup_lt_Some).
        split; [done |]. unfold loc in *. congruence.
      * exists x. by rewrite list_lookup_insert_ne.
    + intros l x. destruct (decide (this = l)) as [-> |].
      * rewrite list_lookup_insert_eq by (by eapply lookup_lt_Some).
        intros [= <-]. rewrite Hname. by apply Hheap.
      * rewrite list_lookup_insert_ne by done. apply Hheap.
Qed.

Lemma run_registry_ok cs : ∀ st st',
  run st cs = Some st' → registry_ok st → registry_ok st'.
Proof.
  induction cs as [| c cs IH]; intros st st' Hr H; simpl in Hr.
  - by simplify_eq.
  - destruct (exec st c) as [st1 |] eqn:He; [| done]. simpl in Hr.
    eapply IH; [exact Hr |]. eapply exec_registry_ok; eauto.
Qed.

Lemma init_registry_ok : registry_ok init.
Proof.
  split_and!.
  - intros nm l H. change (_loggers init) with (<["global" := 0%nat]> (∅ : gmap string loc)) in H.
    destruct (decide ("global" = nm)) as [<- | Hne].
    + rewrite lookup_insert_eq in H. simplify_eq. by eexists.
    + rewrite lookup_insert_ne in H by done. by rewrite lookup_empty in H.
  - intros l lg H. change (heap init) with [{| name := "global"; _enabled := VBool false; _stream := IsStream consoleStream; _level := 1 |}] in H.
    destruct l as [| [| l]]; simplify_eq/=; done.
  - intros nm Hin. change (_loggers init) with (<["global" := 0%nat]> (∅ : gmap string loc)).
    rewrite lookup_insert_ne; [apply lookup_empty |].
    intros <-. revert Hin.
    apply (proj1 (bool_decide_eq_false _)). reflexivity.
Qed.

(** X1. [create] on a name that is neither registered nor inherited from
    [Object.prototype] builds one Logger at a new address, enters it in the
    registry under that name, so that [find] answers it from then on, and
    leaves the Loggers already there, the other entries, the exclusivity
    reference, the global flag and the trace as they were.  The new Logger
    has the name given; its flag is the [enabled] option when the options
    have one and [defaultEnabled] otherwise; its threshold is the [level]
    option unless that is absent or [0], which gives the rank of [log]; its
    stream is the [stream] option unless that is absent or falsy, which
    gives [consoleStream]. *)
Theorem create_fresh_registers
    (st : state) (nm : string) (options : option Options) :
  _loggers st !! nm = None →
  nm ∉ Object_prototype_keys →
  ∃ st' lg,
    create st nm options = (st', VLogger (length (heap st))) ∧
    find st' nm = VLogger (length (heap st)) ∧
    heap st' = heap st ++ [lg] ∧
    _loggers st' = <[nm := length (heap st)]> (_loggers st) ∧
    (∀ nm', nm' ≠ nm → find st' nm' = find st nm') ∧
    _only st' = _only st ∧ _enableAll st' = _enableAll st ∧
    written st' = written st ∧
    name lg = nm ∧
    (opt_enabled (default no_options options) = None →
     _enabled lg = VBool false) ∧
    (∀ v, opt_enabled (default no_options options) = Some v →
     _enabled lg = v) ∧
    (opt_level (default no_options options) = None ∨
     opt_level (default no_options options) = Some 0 →
     _level lg = log levels) ∧
    (∀ n, opt_level (default no_options options) = Some n → n ≠ 0 →
     _level lg = n) ∧
    (opt_stream (default no_options options) = None →
     _stream lg = IsStream consoleStream) ∧
    (∀ v, opt_stream (default no_options options) = Some v →
     _stream lg = if stream_truthy v then v else IsStream consoleStream).
Proof.
  intros Hnone Hnp.
  assert (E : truthy (registry_get (_loggers st) nm) = false)
    by (by apply registry_get_falsy_inv).
  unfold create. rewrite E. simpl.
  eexists _, _. split; [reflexivity |].
  split; [unfold find; simpl; apply registry_get_own, lookup_insert_eq |].
  split; [reflexivity |]. split; [reflexivity |]. simpl.
  split_and!; try done.
  - intros nm' Hne. unfold find, registry_get. simpl.
    by rewrite lookup_insert_ne.
  - intros ->. reflexivity.
  - intros v ->. reflexivity.
  - intros [-> | ->]; reflexivity.
  - intros n -> Hn. simpl. unfold num_or.
    by rewrite (proj2 (Z.eqb_neq n 0) Hn).
  - intros ->. reflexivity.
  - intros v ->. reflexivity.
Qed.

Lemma create_fresh_registers_witness :
  ∃ st', create init "svc" (Some svc_options) = (st', VLogger 1%nat) ∧
    find st' "svc" = VLogger 1%nat ∧ find st' "global" = VLogger 0%nat ∧
    heap st' !! 1%nat =
      Some {| name := "svc"; _enabled := VBool true;
              _stream := IsStream consoleStream; _level := 2 |}.
Proof.
  destruct (create_fresh_registers init "svc" (Some svc_options) eq_refl)
    as (st' & lg & Hc & Hf & Hh & _ & Hother & _ & _ & _ & Hn & _ & He & _
        & Hlv & Hs & _).
  - apply (proj1 (bool_decide_eq_false _)). reflexivity.
  - exists st'. split; [exact Hc |]. split; [exact Hf |].
    split; [rewrite Hother; [reflexivity | discriminate] |].
    rewrite Hh. simpl. f_equal.
    specialize (He (VBool true) eq_refl). specialize (Hlv 2 eq_refl).
    specialize (Hs eq_refl).
    destruct lg; simpl in *. rewrite Hn, He, Hs, Hlv; [done | lia].
Defined.

(** X2. A name inherited from [Object.prototype] (for instance
    [toString]) never designates a Logger: in every state the module can
    reach, [create] with such a name answers the inherited member, builds
    nothing and leaves the state as it was, and so does [find]. *)
Theorem inherited_name_is_never_a_logger
    (cs : list call) (st : state) (nm : string) (options : option Options) :
  run init cs = Some st →
  nm ∈ Object_prototype_keys →
  create st nm options = (st, VBuiltin nm) ∧
  find st nm = VBuiltin nm ∧
  _loggers st !! nm = None.
Proof.
  intros Hr Hin.
  destruct (run_registry_ok _ _ _ Hr init_registry_ok) as (_ & _ & Hproto).
  pose proof (Hproto _ Hin) as Hnone.
  assert (Hg : registry_get (_loggers st) nm = VBuiltin nm).
  { unfold registry_get. rewrite Hnone. by rewrite bool_decide_eq_true_2. }
  unfold create, find. rewrite Hg. done.
Qed.

Lemma inherited_name_is_never_a_logger_witness :
  create svc_state "toString" None = (svc_state, VBuiltin "toString").
Proof.
  apply (inherited_name_is_never_a_logger
           [CCreate "svc" (Some svc_options)] svc_state "toString" None
           eq_refl).
  apply (bool_decide_unpack _). exact I.
Defined.

(** X3. In every state the module can reach, the registry and the heap
    describe the same Loggers: an entry leads to a live Logger that bears
    the entry's name, [find] by the name of a Logger answers that Logger,
    two Loggers never share a name, and the default logger is registered
    as [global]. *)
Theorem registry_matches_heap (cs : list call) (st : state) :
  run init cs = Some st →
  (∀ nm l, _loggers st !! nm = Some l →
     ∃ lg, heap st !! l = Some lg ∧ name lg = nm) ∧
  (∀ l lg, heap st !! l = Some lg → find st (name lg) = VLogger l) ∧
  (∀ l1 l2 lg1 lg2,
     heap st !! l1 = Some lg1 → heap st !! l2 = Some lg2 →
     name lg1 = name lg2 → l1 = l2) ∧
  find st "global" = VLogger _global.
Proof.
  intros Hr.
  destruct (run_registry_ok _ _ _ Hr init_registry_ok) as (Hreg & Hheap & _).
  split; [exact Hreg |].
  split; [intros l lg Hl; by apply registry_get_own, Hheap |].
  split.
  - intros l1 l2 lg1 lg2 H1 H2 Hn.
    apply Hheap in H1, H2. rewrite Hn in H1. unfold loc in *. congruence.
  - apply registry_get_own. eapply run_loggers; [exact Hr | reflexivity].
Qed.

Lemma registry_matches_heap_witness :
  find ab_state "global" = VLogger 0%nat ∧
  find ab_state (name {| name := "b"; _enabled := VBool true;
                         _stream := IsStream consoleStream; _level := 1 |})
    = VLogger 2%nat.
Proof.
  destruct (registry_matches_heap
              [CCreate "a" (Some on_options); CCreate "b" (Some on_options);
               COnly 1%nat] ab_state eq_refl)
    as (_ & Hfind & _ & Hglobal).
  split; [exact Hglobal |]. apply Hfind. reflexivity.
Defined.

End VariantB_registry_heap.

(** ** Filtering, thresholds and flags in the later iteration *)

Section VariantB_more_filtering.
Import VariantB VariantBProps VariantBMore.

Lemma isEnabled_inv st this v r :
  isEnabled st this v = Some r →
  ∃ lg, heap st !! this = Some lg ∧
    truthy r = normal_filter st lg v && only_gate st this ∧
    (truthy r = true → r = VBool true).
Proof.
  intros H. unfold isEnabled in H.
  destruct (heap st !! this) as [lg |] eqn:Hl; [| done]. simpl in H.
  exists lg. split; [done |].
  destruct (isEnabled_truthy st this lg v Hl) as (r' & Hr' & Hv).
  unfold isEnabled in Hr'. rewrite Hl in Hr'. simpl in Hr'.
  assert (r' = r) as -> by congruence.
  split; [exact Hv |].
  simplify_eq. rewrite only_gate_bool. apply js_and_bool_truthy.
Qed.

Lemma write_emits st this lg s lvl data clock :
  heap st !! this = Some lg →
  _stream lg = IsStream s →
  normal_filter st lg (num_or lvl (info levels)) && only_gate st this = true →
  write st this lvl data clock =
    Some (stream_write st s
            (createPayload (name lg) (num_or lvl (info levels)) data clock),
          this).
Proof.
  intros Hl Hs Hf.
  destruct (isEnabled_truthy st this lg (num_or lvl (info levels)) Hl)
    as (en & Hen & Hv).
  rewrite (write_eq _ _ _ _ _ _ _ Hl Hen).
  fold (only_gate st this) in Hv. by rewrite Hv, Hf, Hs.
Qed.

Lemma write_filtered st this lg lvl data clock :
  heap st !! this = Some lg →
  normal_filter st lg (num_or lvl (info levels)) && only_gate st this = false →
  write st this lvl data clock = Some (st, this).
Proof.
  intros Hl Hf.
  destruct (isEnabled_truthy st this lg (num_or lvl (info levels)) Hl)
    as (en & Hen & Hv).
  rewrite (write_eq _ _ _ _ _ _ _ Hl Hen).
  fold (only_gate st this) in Hv. by rewrite Hv, Hf.
Qed.

(** X4. The filtering decision of the later iteration is monotone in the
    level: a Logger that lets rank [v] through lets every higher rank
    through. *)
Theorem B_isEnabled_monotone
    (st : state) (this : loc) (v v' : Z) (r : value) :
  isEnabled st this v = Some r →
  truthy r = true →
  v <= v' →
  isEnabled st this v' = Some (VBool true).
Proof.
  intros H Ht Hle.
  destruct (isEnabled_inv _ _ _ _ H) as (lg & Hl & Hv & _).
  destruct (isEnabled_truthy st this lg v' Hl) as (r' & Hr' & Hv').
  destruct (isEnabled_inv _ _ _ _ Hr') as (_ & _ & _ & Hb).
  rewrite Hr'. f_equal. apply Hb.
  rewrite Hv'. fold (only_gate st this).
  rewrite Ht in Hv. symmetry in Hv.
  apply andb_true_iff in Hv as [Hn Hg]. rewrite Hg, andb_true_r.
  unfold normal_filter in *. apply andb_true_iff in Hn as [Hf Hlv].
  rewrite Hf. simpl. apply Z.leb_le. apply Z.leb_le in Hlv. lia.
Qed.

Lemma B_isEnabled_monotone_witness :
  isEnabled svc_state 1%nat 3 = Some (VBool true).
Proof.
  apply (B_isEnabled_monotone svc_state 1%nat 2 3 (VBool true));
    [reflexivity | reflexivity | lia].
Defined.

(** X5. [level(n)] sets the threshold of the Logger and nothing else: the
    state after it is the state before with the one field rewritten.
    Afterwards a [write] whose rank (the rank of [info] when the argument
    is [0]) is below [n] changes nothing whatever the flags, and one at or
    above [n] is delivered to the stream the Logger holds when a flag is
    set and the exclusivity gate is open. *)
Theorem level_sets_threshold
    (st : state) (this : loc) (lg : Logger) (n : Z) :
  heap st !! this = Some lg →
  let st1 :=
    set_logger st this
      {| name := name lg; _enabled := _enabled lg;
         _stream := _stream lg; _level := n |} in
  level st this n = Some (st1, this) ∧
  heap st1 !! this =
    Some {| name := name lg; _enabled := _enabled lg;
            _stream := _stream lg; _level := n |} ∧
  (∀ l, l ≠ this → heap st1 !! l = heap st !! l) ∧
  _loggers st1 = _loggers st ∧ _only st1 = _only st ∧
  _enableAll st1 = _enableAll st ∧ written st1 = written st ∧
  ∀ lvl data clock,
    (num_or lvl (info levels) < n →
     write st1 this lvl data clock = Some (st1, this)) ∧
    (n <= num_or lvl (info levels) →
     truthy (_enableAll st) || truthy (_enabled lg) = true →
     only_gate st this = true →
     ∀ s, _stream lg = IsStream s →
       write st1 this lvl data clock =
         Some (stream_write st1 s
                 (createPayload (name lg) (num_or lvl (info levels))
                    data clock),
               this)).
Proof.
  intros Hl st1. unfold level. rewrite Hl. simpl.
  split; [reflexivity |].
  set (lg1 := {| name := name lg; _enabled := _enabled lg;
                 _stream := _stream lg; _level := n |}) in *.
  assert (Hl1 : heap st1 !! this = Some lg1).
  { simpl. apply list_lookup_insert_eq. by eapply lookup_lt_Some. }
  split; [exact Hl1 |].
  split; [intros l Hne; simpl; by apply list_lookup_insert_ne |].
  split_and!; try done.
  intros lvl data clock. split.
  - intros Hlt. apply (write_filtered _ _ lg1); [exact Hl1 |].
    unfold normal_filter. simpl.
    replace (n <=? num_or lvl 1) with false
      by (symmetry; apply Z.leb_gt; exact Hlt).
    by rewrite andb_false_r.
  - intros Hle Hflag Hgate s Hs.
    rewrite (write_emits _ _ lg1 s); [reflexivity | exact Hl1 | exact Hs |].
    unfold normal_filter, only_gate in *. simpl in *.
    rewrite Hflag, Hgate. simpl.
    rewrite andb_true_r. by apply Z.leb_le.
Qed.

Lemma level_sets_threshold_witness :
  ∃ st1,
    level svc_state 1%nat 3 = Some (st1, 1%nat) ∧
    write st1 1%nat 2 (VStr "w") 42 = Some (st1, 1%nat) ∧
    written <$> (fst <$> write st1 1%nat 3 (VStr "e") 43) =
      Some [(consoleStream, createPayload "svc" 3 (VStr "e") 43)].
Proof.
  destruct (level_sets_threshold svc_state 1%nat
              {| name := "svc"; _enabled := VBool true;
                 _stream := IsStream consoleStream; _level := 2 |} 3 eq_refl)
    as (Hlv & _ & _ & _ & _ & _ & _ & Hw).
  eexists. split; [exact Hlv |].
  destruct (Hw 2 (VStr "w") 42) as [Hlow _].
  destruct (Hw 3 (VStr "e") 43) as [_ Hhigh].
  split; [apply Hlow; unfold num_or; simpl; lia |].
  rewrite (Hhigh ltac:(unfold num_or; simpl; lia) eq_refl eq_refl
             consoleStream eq_refl).
  reflexivity.
Defined.

End VariantB_more_filtering.

(** ** The trace and the flags through sequences of calls *)

Section VariantB_more_runs.
Import VariantB VariantBProps VariantBMore.

Lemma exec_trace st c st' :
  exec st c = Some st' →
  ∃ more, written st' = written st ++ more ∧
    (length more ≤ 1)%nat ∧ Forall (λ e, payload_shape e.2) more.
Proof.
  intros He.
  assert (Hsame : written st' = written st →
            ∃ more, written st' = written st ++ more ∧
              (length more ≤ 1)%nat ∧ Forall (λ e, payload_shape e.2) more).
  { intros ->. exists []. rewrite app_nil_r. split_and!; [done | simpl; lia | done]. }
  destruct c; simpl in He.
  1: { simplify_eq. apply Hsame. unfold create.
       by destruct (truthy (registry_get (_loggers st) nm)). }
  all: method_inv He; try (by apply Hsame).
  all: eexists [_]; split_and!; [reflexivity | simpl; lia |].
  all: apply Forall_singleton; apply createPayload_shape.
Qed.

(** X6. The trace of stream calls only grows: whatever the calls, what
    was delivered before stays, in the same order, at the head of the
    trace; a call adds at most one delivery, and every delivery added is a
    payload record. *)
Theorem trace_is_append_only (cs : list call) : ∀ (st st' : state),
  run st cs = Some st' →
  ∃ more, written st' = written st ++ more ∧
    (length more ≤ length cs)%nat ∧
    Forall (λ e, payload_shape e.2) more.
Proof.
  induction cs as [| c cs IH]; intros st st' Hr; simpl in Hr.
  - simplify_eq. exists []. rewrite app_nil_r. split_and!; done.
  - destruct (exec st c) as [st1 |] eqn:He; [| done]. simpl in Hr.
    destruct (exec_trace _ _ _ He) as (m1 & H1 & Hn1 & Hp1).
    destruct (IH _ _ Hr) as (m2 & H2 & Hn2 & Hp2).
    exists (m1 ++ m2). rewrite H2, H1, app_assoc.
    split_and!; [done | | by apply Forall_app].
    rewrite length_app. simpl. lia.
Qed.

Lemma trace_is_append_only_witness :
  ∃ more,
    written <$>
      run svc_state [CWrite 1%nat 1 (VStr "a") 41; CWrite 1%nat 2 (VStr "b") 42;
                     CDisable 1%nat; CWrite 1%nat 3 (VStr "c") 43]
      = Some (written svc_state ++ more) ∧ (length more ≤ 4)%nat.
Proof.
  destruct (run svc_state
              [CWrite 1%nat 1 (VStr "a") 41; CWrite 1%nat 2 (VStr "b") 42;
               CDisable 1%nat; CWrite 1%nat 3 (VStr "c") 43])
    as [st' |] eqn:Hr; [| vm_compute in Hr; discriminate].
  destruct (trace_is_append_only _ _ _ Hr) as (more & Hw & Hlen & _).
  exists more. simpl. rewrite Hw. split; [reflexivity | exact Hlen].
Defined.

Lemma exec_enableAll_on st c st' :
  exec st c = Some st' →
  is_disableAll c = false →
  truthy (_enableAll st) = true → truthy (_enableAll st') = true.
Proof.
  intros He Hc H. destruct c; simpl in He; try discriminate.
  1: { simplify_eq. by rewrite create_enableAll. }
  all: method_inv He; done.
Qed.

Lemma run_enableAll_on cs : ∀ st st',
  run st cs = Some st' →
  existsb is_disableAll cs = false →
  truthy (_enableAll st) = true → truthy (_enableAll st') = true.
Proof.
  induction cs as [| c cs IH]; intros st st' Hr Hcs H; simpl in Hr.
  - by simplify_eq.
  - destruct (exec st c) as [st1 |] eqn:He; [| done]. simpl in Hr.
    simpl in Hcs. apply orb_false_iff in Hcs as [Hc Hcs].
    eapply IH; [exact Hr | exact Hcs |]. eapply exec_enableAll_on; eauto.
Qed.

(** X7. In the later iteration [enableAll()] sets [_enableAll] to [true]
    and changes nothing else, and it overrides the Loggers' own flags:
    from then on, through every sequence of calls without [disableAll()]
    (calls of [disable()] included), a Logger lets a rank through exactly
    when its threshold is at most the rank and the exclusivity gate is
    open. *)
Theorem enableAll_overrides_disable (st : state) (this : loc) (lgt : Logger) :
  heap st !! this = Some lgt →
  enableAll st this = Some (set_enableAll st (VBool true), this) ∧
  ∀ cs st2,
    existsb is_disableAll cs = false →
    run (set_enableAll st (VBool true)) cs = Some st2 →
    ∀ l lg v, heap st2 !! l = Some lg →
      ∃ r, isEnabled st2 l v = Some r ∧
        truthy r = (_level lg <=? v) && only_gate st2 l.
Proof.
  intros Hl. unfold enableAll. rewrite Hl. simpl.
  split; [reflexivity |].
  intros cs st2 Hcs Hr l lg v Hlg.
  assert (Hon : truthy (_enableAll st2) = true)
    by (eapply run_enableAll_on; [exact Hr | exact Hcs | reflexivity]).
  destruct (isEnabled_truthy st2 l lg v Hlg) as (r & Hr' & Hv).
  exists r. split; [exact Hr' |].
  rewrite Hv. unfold normal_filter, only_gate. by rewrite Hon.
Qed.

Lemma enableAll_overrides_disable_witness :
  ∃ st1 st2,
    enableAll init 0%nat = Some (st1, 0%nat) ∧
    run st1 [CDisable 0%nat] = Some st2 ∧
    ∃ r, isEnabled st2 0%nat 1 = Some r ∧ truthy r = true.
Proof.
  destruct (enableAll_overrides_disable init 0%nat
              {| name := "global"; _enabled := VBool false;
                 _stream := IsStream consoleStream; _level := 1 |} eq_refl)
    as (Hc & Hafter).
  eexists _, _. split; [exact Hc |]. split; [reflexivity |].
  destruct (Hafter [CDisable 0%nat] _ eq_refl eq_refl 0%nat
              {| name := "global"; _enabled := VBool false;
                 _stream := IsStream consoleStream; _level := 1 |} 1 eq_refl)
    as (r & Hr & Hv).
  exists r. split; [exact Hr | exact Hv].
Defined.

(** X8. While [_enableAll] is unset, [disable()] silences the Logger: it
    touches no other Logger, and from then on, through every sequence of
    calls with neither [enable()] on it nor [enableAll()], [write] on it
    changes nothing at any level. *)
Theorem disable_silences_until_enabled
    (st : state) (this : loc) (lg : Logger) :
  heap st !! this = Some lg →
  truthy (_enableAll st) = false →
  ∃ st1,
    disable st this = Some (st1, this) ∧
    (∀ l, l ≠ this → heap st1 !! l = heap st !! l) ∧
    ∀ cs st2,
      existsb (is_enabling this) cs = false →
      run st1 cs = Some st2 →
      ∀ lvl data clock, write st2 this lvl data clock = Some (st2, this).
Proof.
  intros Hl Hall. unfold disable, set_enabled. rewrite Hl. simpl.
  eexists. split; [reflexivity |].
  split; [intros l Hne; simpl; by apply list_lookup_insert_ne |].
  intros cs st2 Hcs Hr lvl data clock.
  set (lg1 := {| name := name lg; _enabled := VBool false;
                 _stream := _stream lg; _level := _level lg |}) in *.
  assert (Hl1 : heap (set_logger st this lg1) !! this = Some lg1).
  { simpl. apply list_lookup_insert_eq. by eapply lookup_lt_Some. }
  destruct (run_logger cs _ _ _ _ Hr Hl1) as (lg2 & Hl2 & _ & _ & Hoff).
  specialize (Hoff Hcs eq_refl).
  assert (Hall2 : truthy (_enableAll st2) = false)
    by (eapply run_enableAll; [exact Hr | exact Hcs | exact Hall]).
  apply (write_filtered _ _ lg2); [exact Hl2 |].
  unfold normal_filter. by rewrite Hall2, Hoff.
Qed.

Lemma disable_silences_until_enabled_witness :
  ∃ st1 st2,
    disable svc_state 1%nat = Some (st1, 1%nat) ∧
    run st1 [CEnable 0%nat; CLevel 1%nat 1] = Some st2 ∧
    write st2 1%nat 3 (VStr "e") 42 = Some (st2, 1%nat).
Proof.
  destruct (disable_silences_until_enabled svc_state 1%nat
              {| name := "svc"; _enabled := VBool true;
                 _stream := IsStream consoleStream; _level := 2 |} eq_refl eq_refl)
    as (st1 & Hc & _ & Hafter).
  assert (Heq : Some (st1, 1%nat) =
                Some (fst (default (init, 0%nat) (disable svc_state 1%nat)),
                      1%nat))
    by (rewrite Hc; reflexivity).
  simplify_eq.
  eexists _, _. split; [reflexivity |]. split; [reflexivity |].
  exact (Hafter [CEnable 0%nat; CLevel 1%nat 1] _ eq_refl eq_refl
           3 (VStr "e") 42).
Defined.

End VariantB_more_runs.

(** ** How calls compose in the later iteration *)

Section VariantB_compose.
Import VariantB VariantBProps VariantBMore.

Lemma set_logger_same st this lg :
  heap st !! this = Some lg → set_logger st this lg = st.
Proof.
  intros Hl. unfold set_logger, set_heap. rewrite list_insert_id by done.
  by destruct st.
Qed.

(** X9. [pipe] with the stream already attached changes nothing.  Of two
    [pipe] calls in a row on one Logger the last one decides: the state is
    the one that the second call alone would give.  A [pipe] changes the
    stream of its Logger only, not its name, flag or threshold, nor any
    other Logger. *)
Theorem pipe_last_wins
    (st : state) (this : loc) (lg : Logger) (s1 s2 : stream_value) :
  heap st !! this = Some lg →
  pipe st this (_stream lg) = Some (st, _stream lg) ∧
  ∃ st1 st2,
    pipe st this s1 = Some (st1, s1) ∧
    pipe st1 this s2 = Some (st2, s2) ∧
    pipe st this s2 = Some (st2, s2) ∧
    heap st1 !! this =
      Some {| name := name lg; _enabled := _enabled lg;
              _stream := s1; _level := _level lg |} ∧
    (∀ l, l ≠ this → heap st1 !! l = heap st !! l) ∧
    _loggers st1 = _loggers st ∧ _only st1 = _only st ∧
    _enableAll st1 = _enableAll st ∧ written st1 = written st.
Proof.
  intros Hl.
  assert (Hlt : (this < length (heap st))%nat) by (by eapply lookup_lt_Some).
  assert (Hpipe : ∀ s, pipe st this s =
            Some (set_logger st this
                    {| name := name lg; _enabled := _enabled lg;
                       _stream := s; _level := _level lg |}, s)).
  { intros s. unfold pipe. rewrite Hl. simpl.
    destruct (decide (s ≠ _stream lg)) as [| Heq]; [done |].
    apply dec_stable in Heq. subst s.
    rewrite set_logger_same; [done |]. by destruct lg. }
  split.
  - rewrite Hpipe. rewrite set_logger_same; [done |]. by destruct lg.
  - eexists _, _. split; [apply Hpipe |].
    split; [| split; [apply Hpipe |]].
    + unfold pipe at 1. simpl. rewrite list_lookup_insert_eq by done. simpl.
      destruct (decide (s2 ≠ s1)) as [| Heq].
      * unfold set_logger, set_heap. simpl.
        by rewrite list_insert_insert_eq.
      * apply dec_stable in Heq. subst s2. done.
    + split; [simpl; by apply list_lookup_insert_eq |].
      split; [intros l Hne; simpl; by apply list_lookup_insert_ne |].
      done.
Qed.

Lemma pipe_last_wins_witness :
  fst <$> (st1 ← fst <$> pipe svc_state 1%nat (IsStream (External 3));
           pipe st1 1%nat (IsStream (External 7)))
  = fst <$> pipe svc_state 1%nat (IsStream (External 7)).
Proof.
  destruct (pipe_last_wins svc_state 1%nat
              {| name := "svc"; _enabled := VBool true;
                 _stream := IsStream consoleStream; _level := 2 |}
              (IsStream (External 3)) (IsStream (External 7)) eq_refl)
    as (_ & st1 & st2 & H1 & H2 & H3 & _).
  rewrite H1. simpl. rewrite H2, H3. reflexivity.
Defined.

(** X10. [all()] releases exclusivity whoever holds it: right after it,
    [only()] on any Logger makes that Logger the holder.  [only()] by the
    holder and a second [all()] change nothing. *)
Theorem all_then_only_claims
    (st : state) (this other : loc) (lgt lgo : Logger) :
  heap st !! this = Some lgt →
  heap st !! other = Some lgo →
  ∃ st1 st2,
    all st this = Some (st1, this) ∧
    all st1 this = Some (st1, this) ∧
    only st1 other = Some (st2, other) ∧
    holds_only st2 other ∧
    st2 = set_only st (VLogger other) ∧
    only st2 other = Some (st2, other).
Proof.
  intros Ht Ho.
  exists (set_only st VNull), (set_only st (VLogger other)).
  unfold all, only. simpl. rewrite Ht, Ho. simpl.
  split_and!; reflexivity.
Qed.

Lemma all_then_only_claims_witness :
  ∃ st1 st2,
    all ab_state 2%nat = Some (st1, 2%nat) ∧
    only st1 2%nat = Some (st2, 2%nat) ∧
    holds_only ab_state 1%nat ∧ holds_only st2 2%nat.
Proof.
  destruct (all_then_only_claims ab_state 2%nat 2%nat
              {| name := "b"; _enabled := VBool true;
                 _stream := IsStream consoleStream; _level := 1 |}
              {| name := "b"; _enabled := VBool true;
                 _stream := IsStream consoleStream; _level := 1 |} eq_refl eq_refl)
    as (st1 & st2 & Ha & _ & Ho & Hh & _).
  exists st1, st2. split; [exact Ha |]. split; [exact Ho |].
  split; [reflexivity | exact Hh].
Defined.

(** X11. [enable()] and [disable()] write the Logger's own flag and
    nothing else: the state after either is the state before with that one
    field rewritten.  Of two such calls in a row the last one decides.
    After [enable()], when the exclusivity gate is open, a [write] at or
    above the threshold is delivered to the stream the Logger holds, with
    the Logger's name. *)
Theorem enable_disable_last_wins (st : state) (this : loc) (lg : Logger) :
  heap st !! this = Some lg →
  let son :=
    set_logger st this
      {| name := name lg; _enabled := VBool true;
         _stream := _stream lg; _level := _level lg |} in
  let soff :=
    set_logger st this
      {| name := name lg; _enabled := VBool false;
         _stream := _stream lg; _level := _level lg |} in
  enable st this = Some (son, this) ∧
  disable st this = Some (soff, this) ∧
  disable son this = Some (soff, this) ∧
  enable soff this = Some (son, this) ∧
  enable son this = Some (son, this) ∧
  disable soff this = Some (soff, this) ∧
  (∀ l, l ≠ this →
     heap son !! l = heap st !! l ∧ heap soff !! l = heap st !! l) ∧
  ∀ lvl data clock s,
    _level lg <= num_or lvl (info levels) →
    only_gate st this = true →
    _stream lg = IsStream s →
    write son this lvl data clock =
      Some (stream_write son s
              (createPayload (name lg) (num_or lvl (info levels))
                 data clock),
            this).
Proof.
  intros Hl son soff.
  assert (Hlt : (this < length (heap st))%nat) by (by eapply lookup_lt_Some).
  subst son soff.
  unfold enable, disable, set_enabled. rewrite Hl. simpl.
  rewrite !list_lookup_insert_eq by done. simpl.
  unfold set_logger, set_heap. simpl.
  rewrite !list_insert_insert_eq.
  split_and!; try done.
  - intros l Hne. by rewrite !list_lookup_insert_ne.
  - intros lvl data clock s Hle Hgate Hs.
    set (lg1 := {| name := name lg; _enabled := VBool true;
                   _stream := _stream lg; _level := _level lg |}).
    rewrite (write_emits _ _ lg1 s); [done | | exact Hs |].
    + simpl. by apply list_lookup_insert_eq.
    + unfold normal_filter, only_gate in *. simpl in *.
      rewrite orb_true_r, Hgate. simpl. rewrite andb_true_r.
      by apply Z.leb_le.
Qed.

Lemma enable_disable_last_wins_witness :
  ∃ son,
    enable init 0%nat = Some (son, 0%nat) ∧
    written <$> (fst <$> write son 0%nat 0 (VStr "m") 42) =
      Some [(consoleStream, createPayload "global" 1 (VStr "m") 42)].
Proof.
  destruct (enable_disable_last_wins init 0%nat
              {| name := "global"; _enabled := VBool false;
                 _stream := IsStream consoleStream; _level := 1 |} eq_refl)
    as (Hon & _ & _ & _ & _ & _ & _ & Hw).
  eexists. split; [exact Hon |].
  rewrite (Hw 0 (VStr "m") 42 consoleStream
             ltac:(unfold num_or; simpl; lia) eq_refl eq_refl).
  reflexivity.
Defined.

End VariantB_compose.

(** ** The earlier iteration: the default logger as the global switch *)

Section VariantA_logData_cases.
Import VariantA.

Lemma A_stream_eq st this lg g :
  heap st !! this = Some lg →
  heap st !! _global = Some g →
  stream st this = Some (stream_or (_stream lg) (_stream g)).
Proof.
  intros Hl Hg. unfold stream, stream_or. rewrite Hl. simpl.
  destruct (stream_truthy (_stream lg)); [done |]. by rewrite Hg.
Qed.

(** [logData] raises, or returns [this] having changed nothing, or returns
    [this] after one call on a stream. *)
Lemma A_logData_cases st this lvl data clock :
  logData st this lvl data clock = None ∨
  logData st this lvl data clock = Some (st, this) ∨
  ∃ lg s,
    heap st !! this = Some lg ∧
    logData st this lvl data clock =
      Some (stream_write st s
              (createPayload (name lg) (num_or lvl (info levels)) data clock),
            this).
Proof.
  unfold logData. cbv zeta.
  destruct (heap st !! this) as [lg |] eqn:Hl; [| by left]. simpl.
  destruct (isEnabled st this _) as [en |]; [| by left]. simpl.
  destruct (truthy en); [| by right; left].
  destruct (stream st this) as [v |]; [| by left]. simpl.
  destruct (as_stream v) as [s |]; simpl; [| by left].
  right. right. eauto.
Qed.

Lemma A_after_logData st this lvl data clock :
  after st (logData st this lvl data clock) = st ∨
  ∃ lg s,
    heap st !! this = Some lg ∧
    after st (logData st this lvl data clock) =
      stream_write st s
        (createPayload (name lg) (num_or lvl (info levels)) data clock).
Proof.
  destruct (A_logData_cases st this lvl data clock)
    as [-> | [-> | (lg & s & Hl & ->)]]; eauto 10.
Qed.

Lemma A_after_level_method key st this args clock :
  after st (level_method key st this args clock) = st ∨
  ∃ lg s rank,
    heap st !! this = Some lg ∧
    after st (level_method key st this args clock) =
      stream_write st s
        (createPayload (name lg) (num_or rank (info levels))
           (VArguments args) clock).
Proof.
  unfold level_method. destruct (levels_get levels key) as [rank |]; simpl;
    [| by left].
  destruct (A_after_logData st this rank (VArguments args) clock)
    as [H | (lg & s & Hl & H)]; [by left |].
  right. eauto 10.
Qed.

End VariantA_logData_cases.

(** Case analysis on the outcome of a method call of the earlier
    iteration. *)
Ltac method_inv_A H :=
  unfold VariantA.pipe, VariantA.stream, VariantA.enable, VariantA.disable,
    VariantA.set_enabled, VariantA.only, VariantA.all, VariantA.enableAll,
    VariantA.disableAll, VariantA.level in H;
  cbv zeta in H; simplify_option_eq;
  repeat match goal with
  | |- context [VariantA.after ?st (VariantA.logData ?st ?t ?l ?d ?c)] =>
      let E := fresh "E" in
      destruct (A_after_logData st t l d c) as [E | (? & ? & ? & E)];
      rewrite E in *; clear E
  | |- context [VariantA.after ?st (VariantA.level_method ?k ?st ?t ?a ?c)] =>
      let E := fresh "E" in
      destruct (A_after_level_method k st t a c)
        as [E | (? & ? & ? & ? & E)];
      rewrite E in *; clear E
  end;
  repeat case_match; simplify_eq; simpl in *.

Section VariantA_more.
Import VariantA VariantAProps VariantACalls.

Lemma A_isEnabled_truthy st this lg g v :
  heap st !! this = Some lg →
  heap st !! _global = Some g →
  ∃ r, isEnabled st this v = Some r ∧
    truthy r =
      truthy (_enabled g) && truthy (_enabled lg) &&
      ((_level g <=? v) || (_level lg <=? v)) &&
      (negb (truthy (_only st)) ||
       match _only st with VLogger l => Nat.eqb l this | _ => false end) ∧
    (truthy r = true → r = VBool true).
Proof.
  intros Hl Hg. unfold isEnabled. rewrite Hl. simpl. rewrite Hg. simpl.
  eexists. split; [reflexivity |].
  destruct (truthy (_enabled g)) eqn:Eg; simpl; [| done].
  rewrite only_gate_bool. split; [| apply js_and_bool_truthy].
  rewrite !truthy_js_and, truthy_js_or. reflexivity.
Qed.

Lemma A_logData_eq st this lg g lvl data clock en :
  heap st !! this = Some lg →
  heap st !! _global = Some g →
  isEnabled st this (num_or lvl (info levels)) = Some en →
  logData st this lvl data clock =
    if truthy en
    then s ← as_stream (stream_or (_stream lg) (_stream g));
         Some (stream_write st s
                 (createPayload (name lg) (num_or lvl (info levels)) data clock),
               this)
    else Some (st, this).
Proof.
  intros Hl Hg He. unfold logData. cbv zeta. rewrite Hl.
  simpl in *. rewrite He. simpl.
  destruct (truthy en); [| done].
  by rewrite (A_stream_eq _ _ _ _ Hl Hg).
Qed.

(** X12. The filtering decision of the earlier iteration is monotone in
    the level as well. *)
Theorem A_isEnabled_monotone
    (st : state) (this : loc) (v v' : Z) (r : value) :
  isEnabled st this v = Some r →
  truthy r = true →
  v <= v' →
  isEnabled st this v' = Some (VBool true).
Proof.
  intros H Ht Hle.
  assert (∃ lg g, heap st !! this = Some lg ∧ heap st !! _global = Some g)
    as (lg & g & Hl & Hg).
  { unfold isEnabled in H.
    destruct (heap st !! this) as [lg |]; [| done]. simpl in H.
    destruct (heap st !! _global) as [g |]; [| done]. eauto. }
  destruct (A_isEnabled_truthy st this lg g v Hl Hg) as (r0 & Hr0 & Hv & _).
  destruct (A_isEnabled_truthy st this lg g v' Hl Hg) as (r' & Hr' & Hv' & Hb).
  assert (r0 = r) as -> by congruence.
  rewrite Hr'. f_equal. apply Hb. rewrite Hv'.
  rewrite Ht in Hv. symmetry in Hv.
  apply andb_true_iff in Hv as [Hv Hgate].
  apply andb_true_iff in Hv as [Hflags Hlv].
  rewrite Hflags, Hgate, andb_true_r. simpl.
  apply orb_true_iff. apply orb_true_iff in Hlv.
  rewrite !Z.leb_le in *. lia.
Qed.

Lemma A_isEnabled_monotone_witness :
  isEnabled svc_state 1%nat 3 = Some (VBool true).
Proof.
  apply (A_isEnabled_monotone svc_state 1%nat 1 3 (VBool true));
    [reflexivity | reflexivity | lia].
Defined.

(** X13. In the earlier iteration the threshold of the default logger
    overrides a Logger's own: whatever rank [level(n)] sets on a Logger,
    [logData] at a rank that the default logger's threshold admits is
    still delivered, as long as both [_enabled] flags are set and the
    exclusivity gate is open.  It is delivered to the stream the Logger
    holds or, when what the Logger holds is falsy, to the one the default
    logger holds; when neither gives a stream the call raises. *)
Theorem A_global_threshold_overrides_own
    (st : state) (this : loc) (lg g : Logger) (n : Z) :
  heap st !! this = Some lg →
  heap st !! _global = Some g →
  this ≠ _global →
  let st1 :=
    set_logger st this
      {| name := name lg; _enabled := _enabled lg;
         _stream := _stream lg; _level := n |} in
  level st this n = Some (st1, this) ∧
  ∀ lvl data clock,
    _level g <= num_or lvl (info levels) →
    truthy (_enabled g) = true →
    truthy (_enabled lg) = true →
    truthy (_only st) = false ∨ _only st = VLogger this →
    logData st1 this lvl data clock =
      (s ← as_stream (stream_or (_stream lg) (_stream g));
       Some (stream_write st1 s
               (createPayload (name lg) (num_or lvl (info levels))
                  data clock),
             this)).
Proof.
  intros Hl Hg Hne st1. unfold level. rewrite Hl. simpl.
  split; [reflexivity |].
  intros lvl data clock Hle Heg Hel Hgate.
  set (lg1 := {| name := name lg; _enabled := _enabled lg;
                 _stream := _stream lg; _level := n |}) in *.
  assert (Hl1 : heap st1 !! this = Some lg1).
  { simpl. apply list_lookup_insert_eq. by eapply lookup_lt_Some. }
  assert (Hg1 : heap st1 !! _global = Some g).
  { simpl. by rewrite list_lookup_insert_ne. }
  destruct (A_isEnabled_truthy _ this lg1 g (num_or lvl (info levels)) Hl1 Hg1)
    as (en & Hen & Hv & _).
  assert (Ht : truthy en = true).
  { rewrite Hv. change (_enabled lg1) with (_enabled lg).
    change (_only st1) with (_only st). rewrite Heg, Hel.
    apply only_gate_true in Hgate. rewrite Hgate.
    replace (_level g <=? num_or lvl (info levels)) with true
      by (symmetry; by apply Z.leb_le).
    reflexivity. }
  rewrite (A_logData_eq _ _ _ _ _ _ _ _ Hl1 Hg1 Hen), Ht. reflexivity.
Qed.

Lemma A_global_threshold_overrides_own_witness :
  ∃ st1,
    level svc_state 1%nat 3 = Some (st1, 1%nat) ∧
    written <$> (fst <$> logData st1 1%nat 1 (VStr "m") 42) =
      Some [(Console 1, createPayload "svc" 1 (VStr "m") 42)].
Proof.
  destruct (A_global_threshold_overrides_own svc_state 1%nat
              {| name := "svc"; _enabled := VBool true;
                 _stream := IsStream (Console 1); _level := 2 |}
              {| name := "global"; _enabled := VBool true;
                 _stream := IsStream (Console 0); _level := 1 |} 3
              eq_refl eq_refl)
    as (Hlv & Hw); [discriminate |].
  eexists. split; [exact Hlv |].
  rewrite (Hw 1 (VStr "m") 42 ltac:(unfold num_or; simpl; lia)
             eq_refl eq_refl (or_introl eq_refl)).
  reflexivity.
Defined.

Lemma A_create_heap st nm options l lg :
  heap st !! l = Some lg → heap (fst (create st nm options)) !! l = Some lg.
Proof.
  intros H. unfold create.
  destruct (truthy (registry_get (_loggers st) nm)); [done |].
  simpl. by apply lookup_app_l_Some.
Qed.

Lemma A_logData_heap st this lvl data clock st' r :
  logData st this lvl data clock = Some (st', r) → heap st' = heap st.
Proof.
  destruct (A_logData_cases st this lvl data clock)
    as [-> | [-> | (lg & s & Hl & ->)]]; intros; by simplify_eq.
Qed.

Lemma A_level_method_heap key st this args clock st' r :
  level_method key st this args clock = Some (st', r) → heap st' = heap st.
Proof.
  unfold level_method. destruct (levels_get levels key); [| done]. simpl.
  apply A_logData_heap.
Qed.

Lemma A_disableAll_inv st this st' r :
  disableAll st this = Some (st', r) →
  ∃ g, heap st !! _global = Some g ∧
    heap st' = <[_global := {| name := name g; _enabled := VBool false;
                               _stream := _stream g; _level := _level g |}]>
                 (heap st).
Proof.
  unfold disableAll, set_enabled.
  destruct (heap st !! this); [| done]. simpl.
  destruct (heap st !! _global) as [g |]; [| done]. simpl.
  intros. simplify_eq. eauto.
Qed.

(** Only [enableAll()] and [enable()] on the default logger can set the
    default logger's flag. *)
Lemma A_exec_global_off st c st' g :
  exec st c = Some st' →
  is_global_enabling c = false →
  heap st !! _global = Some g →
  truthy (_enabled g) = false →
  ∃ g', heap st' !! _global = Some g' ∧ truthy (_enabled g') = false.
Proof.
  intros He Hc Hg Hoff.
  assert (Hsame : heap st' = heap st →
            ∃ g', heap st' !! _global = Some g' ∧ truthy (_enabled g') = false)
    by (intros ->; eauto).
  assert (Hlt : (_global < length (heap st))%nat) by (by eapply lookup_lt_Some).
  destruct c; simpl in He, Hc; try discriminate.
  - simplify_eq. exists g. split; [by apply A_create_heap | done].
  - apply Hsame. by simplify_eq.
  - method_inv_A He; [| eauto].
    destruct (decide (this = _global)) as [Heq |].
    + rewrite Heq in *. rewrite list_lookup_insert_eq by done.
      eexists. split; [reflexivity |]. simpl.
      unfold loc in *. by simplify_eq.
    + rewrite list_lookup_insert_ne by done. eauto.
  - method_inv_A He; eauto.
  - method_inv_A He; eauto.
  - method_inv_A He; eauto.
  - apply Hsame.
    destruct (isEnabled st this level0); simpl in He; by simplify_eq.
  - method_inv_A He.
    apply Nat.eqb_neq in Hc. rewrite list_lookup_insert_ne by done. eauto.
  - method_inv_A He.
    destruct (decide (this = _global)) as [Heq |].
    + rewrite Heq in *. rewrite list_lookup_insert_eq by done.
      eexists. split; [reflexivity |]. done.
    + rewrite list_lookup_insert_ne by done. eauto.
  - method_inv_A He; eauto.
  - method_inv_A He; eauto.
  - apply fmap_Some in He as ([s r] & He & ->).
    apply A_disableAll_inv in He as (g0 & Hg0 & Hh). simpl. rewrite Hh.
    rewrite list_lookup_insert_eq by done. eexists. split; [reflexivity | done].
  - method_inv_A He.
    destruct (decide (this = _global)) as [Heq |].
    + rewrite Heq in *. rewrite list_lookup_insert_eq by done.
      eexists. split; [reflexivity |]. simpl.
      unfold loc in *. by simplify_eq.
    + rewrite list_lookup_insert_ne by done. eauto.
Qed.

Lemma A_run_global_off cs : ∀ st st' g,
  run st cs = Some st' →
  existsb is_global_enabling cs = false →
  heap st !! _global = Some g →
  truthy (_enabled g) = false →
  ∃ g', heap st' !! _global = Some g' ∧ truthy (_enabled g') = false.
Proof.
  induction cs as [| c cs IH]; intros st st' g Hr Hcs Hg Hoff; simpl in Hr.
  - simplify_eq. eauto.
  - destruct (exec st c) as [st1 |] eqn:He; [| done]. simpl in Hr.
    simpl in Hcs. apply orb_false_iff in Hcs as [Hc Hcs].
    destruct (A_exec_global_off _ _ _ _ He Hc Hg Hoff) as (g1 & Hg1 & Hoff1).
    eapply IH; eauto.
Qed.

(** X14. In the earlier iteration the default logger is the global
    switch: [disableAll()] on any Logger gives the same state as
    [disable()] on the default logger, and from then on, through every
    sequence of calls with neither [enableAll()] nor [enable()] on the
    default logger, [logData] on any Logger changes nothing, whatever its
    own flag, its threshold and the level. *)
Theorem A_global_disable_silences_all
    (st : state) (this : loc) (lgt g : Logger) :
  heap st !! this = Some lgt →
  heap st !! _global = Some g →
  ∃ st1,
    disableAll st this = Some (st1, this) ∧
    disable st _global = Some (st1, _global) ∧
    ∀ cs st2,
      existsb is_global_enabling cs = false →
      run st1 cs = Some st2 →
      ∀ l lg lvl data clock,
        heap st2 !! l = Some lg →
        logData st2 l lvl data clock = Some (st2, l).
Proof.
  intros Hl Hg. unfold disableAll, disable, set_enabled.
  rewrite Hl, Hg. simpl.
  eexists. split; [reflexivity |]. split; [reflexivity |].
  intros cs st2 Hcs Hr l lg lvl data clock Hlg.
  set (g1 := {| name := name g; _enabled := VBool false;
                _stream := _stream g; _level := _level g |}) in *.
  assert (Hg1 : heap (set_logger st _global g1) !! _global = Some g1).
  { simpl. apply list_lookup_insert_eq. by eapply lookup_lt_Some. }
  destruct (A_run_global_off cs _ _ _ Hr Hcs Hg1 eq_refl) as (g2 & Hg2 & Hoff).
  destruct (A_isEnabled_truthy st2 l lg g2 (num_or lvl (info levels)) Hlg Hg2)
    as (en & Hen & Hv & _).
  rewrite (A_logData_eq _ _ _ _ _ _ _ _ Hlg Hg2 Hen), Hv, Hoff. done.
Qed.

Lemma A_global_disable_silences_all_witness :
  ∃ st1 st2,
    disableAll svc_state 1%nat = Some (st1, 1%nat) ∧
    run st1 [AEnable 1%nat; ALevel 1%nat 1] = Some st2 ∧
    logData st2 1%nat 3 (VStr "e") 42 = Some (st2, 1%nat).
Proof.
  destruct (A_global_disable_silences_all svc_state 1%nat
              {| name := "svc"; _enabled := VBool true;
                 _stream := IsStream (Console 1); _level := 2 |}
              {| name := "global"; _enabled := VBool true;
                 _stream := IsStream (Console 0); _level := 1 |} eq_refl eq_refl)
    as (st1 & Hc & _ & Hafter).
  assert (Heq : Some (st1, 1%nat) =
                Some (fst (default (init, 0%nat) (disableAll svc_state 1%nat)),
                      1%nat))
    by (rewrite Hc; reflexivity).
  simplify_eq.
  eexists _, _. split; [reflexivity |]. split; [reflexivity |].
  exact (Hafter [AEnable 1%nat; ALevel 1%nat 1] _ eq_refl eq_refl 1%nat
           {| name := "svc"; _enabled := VBool true;
              _stream := IsStream (Console 1); _level := 1 |} 3 (VStr "e") 42 eq_refl).
Defined.

(** X15. In the earlier iteration a Logger created without an own
    [enabled] option is enabled, and without a [stream] option it holds the
    console adapter that [getConsoleStream] builds for it; while the
    default logger is enabled and exclusivity is unset, [logData] on it is
    delivered to the stream it holds at every rank that its threshold or
    the default logger's threshold admits. *)
Theorem A_fresh_logger_speaks
    (st : state) (nm : string) (options : option Options) (g : Logger) :
  truthy (registry_get (_loggers st) nm) = false →
  opt_enabled (default no_options options) = None →
  heap st !! _global = Some g →
  truthy (_enabled g) = true →
  truthy (_only st) = false →
  ∃ st1 lg,
    create st nm options = (st1, VLogger (length (heap st))) ∧
    heap st1 = heap st ++ [lg] ∧
    name lg = nm ∧
    _enabled lg = VBool true ∧
    _stream lg =
      stream_or (default SUndefined (opt_stream (default no_options options)))
        (IsStream (getConsoleStream (length (heap st)))) ∧
    (opt_stream (default no_options options) = None →
     _stream lg = IsStream (getConsoleStream (length (heap st)))) ∧
    ∀ lvl data clock s,
      _level g <= num_or lvl (info levels) ∨
      _level lg <= num_or lvl (info levels) →
      _stream lg = IsStream s →
      logData st1 (length (heap st)) lvl data clock =
        Some (stream_write st1 s
                (createPayload nm (num_or lvl (info levels)) data clock),
              length (heap st)).
Proof.
  intros Hfree Hopt Hg Heg Honly.
  set (lg := {| name := nm; _enabled := VBool true;
                _stream := stream_or
                             (default SUndefined
                                (opt_stream (default no_options options)))
                             (IsStream (getConsoleStream (length (heap st))));
                _level := num_or
                            (default 0 (opt_level (default no_options options)))
                            (log levels) |}).
  set (st1 := set_loggers (set_heap st (heap st ++ [lg]))
                (<[nm := length (heap st)]> (_loggers st))).
  assert (Hc : create st nm options = (st1, VLogger (length (heap st)))).
  { unfold create. rewrite Hfree. unfold new_Logger. cbv zeta.
    rewrite Hopt. reflexivity. }
  assert (Hl1 : heap st1 !! length (heap st) = Some lg)
    by (simpl; by apply list_lookup_middle).
  assert (Hg1 : heap st1 !! _global = Some g)
    by (simpl; by apply lookup_app_l_Some).
  exists st1, lg. split; [exact Hc |]. split; [reflexivity |].
  split; [reflexivity |]. split; [reflexivity |]. split; [reflexivity |].
  split.
  - intros Hs. subst lg. simpl. rewrite Hs. reflexivity.
  - intros lvl data clock s Hle Hs.
    destruct (A_isEnabled_truthy st1 _ lg g (num_or lvl (info levels)) Hl1 Hg1)
      as (en & Hen & Hv & _).
    assert (Ht : truthy en = true).
    { rewrite Hv, Heg. change (_only st1) with (_only st). rewrite Honly.
      change (truthy (_enabled lg)) with true.
      cbn [negb orb andb]. rewrite andb_true_r.
      apply orb_true_iff. rewrite !Z.leb_le. exact Hle. }
    rewrite (A_logData_eq _ _ _ _ _ _ _ _ Hl1 Hg1 Hen), Ht.
    unfold stream_or. rewrite Hs. reflexivity.
Qed.

Lemma A_fresh_logger_speaks_witness :
  ∃ st1,
    create init "fresh" None = (st1, VLogger 1%nat) ∧
    written <$> (fst <$> logData st1 1%nat 0 (VStr "m") 42) =
      Some [(Console 1, createPayload "fresh" 1 (VStr "m") 42)].
Proof.
  destruct (A_fresh_logger_speaks init "fresh" None
              {| name := "global"; _enabled := VBool true;
                 _stream := IsStream (Console 0); _level := 1 |}
              eq_refl eq_refl eq_refl eq_refl eq_refl)
    as (st1 & lg & Hc & Hl & _ & _ & _ & Hs & Hw).
  exists st1. split; [exact Hc |].
  assert (Heq : (st1, VLogger 1%nat) =
                (fst (create init "fresh" None), VLogger 1%nat))
    by exact (eq_trans (eq_sym Hc) eq_refl).
  simplify_eq.
  refine (eq_trans
            (f_equal (λ r, written <$> (fst <$> r))
               (Hw 0 (VStr "m") 42 (Console 1) _ (Hs eq_refl))) _);
    [left; unfold num_or; simpl; lia | reflexivity].
Defined.

End VariantA_more.

(** ** The console adapter *)

Section Console_adapter.
Import VariantB VariantBProps VariantBMore.

Lemma level_is_createPayload nm lvl data clock rank :
  ConsoleStream.level_is (createPayload nm lvl data clock) rank = (lvl =? rank).
Proof. reflexivity. Qed.

(** X16. The console adapter routes a payload by its rank: the rank of
    [log] and [info] goes to [console.log], the rank of [warn] to
    [console.warn], the rank of [error] to [console.error], each with the
    payload unchanged; a payload of any other rank, or whose [level] is not
    a number, is dropped without a trace.  Without a console nothing
    happens at all. *)
Theorem console_routes_by_rank
    (out : list (ConsoleStream.console_method * list (string * value)))
    (p : list (string * value)) (n : Z) :
  get_field p "level" = VNum n →
  ConsoleStream.write levels None p = None ∧
  (n = log levels ∨ n = info levels →
   ConsoleStream.write levels (Some out) p = Some (out ++ [(ConsoleStream.console_log, p)])) ∧
  (n = warn levels →
   ConsoleStream.write levels (Some out) p = Some (out ++ [(ConsoleStream.console_warn, p)])) ∧
  (n = error levels →
   ConsoleStream.write levels (Some out) p = Some (out ++ [(ConsoleStream.console_error, p)])) ∧
  (n ≠ log levels → n ≠ warn levels → n ≠ error levels →
   ConsoleStream.write levels (Some out) p = Some out) ∧
  (∀ q, (∀ m, get_field q "level" ≠ VNum m) →
     ConsoleStream.write levels (Some out) q = Some out).
Proof.
  intros Hn. split; [reflexivity |].
  unfold ConsoleStream.write, ConsoleStream.switch_level, ConsoleStream.level_is. rewrite Hn. simpl.
  split_and!.
  - intros [-> | ->]; reflexivity.
  - intros ->. reflexivity.
  - intros ->. reflexivity.
  - intros H1 H2 H3.
    apply Z.eqb_neq in H1, H2, H3. by rewrite H1, H2, H3.
  - intros q Hq. destruct (get_field q "level") eqn:E; try done.
    by destruct (Hq n0).
Qed.

Lemma console_routes_by_rank_witness :
  ConsoleStream.write levels (Some []) (createPayload "svc" 2 (VStr "w") 42) =
    Some [(ConsoleStream.console_warn, createPayload "svc" 2 (VStr "w") 42)] ∧
  ConsoleStream.write levels (Some []) (createPayload "svc" 4 (VStr "w") 42) = Some [].
Proof.
  destruct (console_routes_by_rank [] (createPayload "svc" 2 (VStr "w") 42) 2
              eq_refl) as (_ & _ & Hwarn & _).
  destruct (console_routes_by_rank [] (createPayload "svc" 4 (VStr "w") 42) 4
              eq_refl) as (_ & _ & _ & _ & Hdrop & _).
  split; [apply Hwarn; reflexivity | apply Hdrop; discriminate].
Defined.

Lemma console_output_snoc dest w s p :
  ConsoleStream.console_output dest (w ++ [(s, p)]) =
  if decide (s = consoleStream)
  then ConsoleStream.write levels (ConsoleStream.console_output dest w) p
  else ConsoleStream.console_output dest w.
Proof. unfold ConsoleStream.console_output. by rewrite foldl_app. Qed.

(** X17. From a Logger to the console.  A [write] that passes the filter
    on a Logger holding a stream hands that stream exactly one payload,
    whatever its rank.  When the stream is the console adapter, the
    console gets exactly one call if the rank is one of the three ranks of
    [levels], on the method of that rank and with that payload, and none
    otherwise: a payload of a custom rank is handed to the adapter and
    then dropped.  When the stream is another one, the console gets
    nothing. *)
Theorem write_reaches_console
    (st : state) (this : loc) (lg : Logger) (s : Stream) (lvl : Z)
    (data : value) (clock : Z)
    (out : list (ConsoleStream.console_method * list (string * value))) :
  heap st !! this = Some lg →
  _stream lg = IsStream s →
  normal_filter st lg (num_or lvl (info levels)) && only_gate st this = true →
  ConsoleStream.console_output (Some []) (written st) = Some out →
  let rank := num_or lvl (info levels) in
  let p := createPayload (name lg) rank data clock in
  let st' := stream_write st s p in
  write st this lvl data clock = Some (st', this) ∧
  written st' = written st ++ [(s, p)] ∧
  (s ≠ consoleStream →
   ConsoleStream.console_output (Some []) (written st') = Some out) ∧
  (s = consoleStream →
   (rank = 1 → ConsoleStream.console_output (Some []) (written st') =
               Some (out ++ [(ConsoleStream.console_log, p)])) ∧
   (rank = 2 → ConsoleStream.console_output (Some []) (written st') =
               Some (out ++ [(ConsoleStream.console_warn, p)])) ∧
   (rank = 3 → ConsoleStream.console_output (Some []) (written st') =
               Some (out ++ [(ConsoleStream.console_error, p)])) ∧
   (rank < 1 ∨ 3 < rank →
    ConsoleStream.console_output (Some []) (written st') = Some out)).
Proof.
  intros Hl Hs Hf Hout rank p st'.
  split; [exact (write_emits _ _ _ _ _ _ _ Hl Hs Hf) |].
  split; [reflexivity |].
  subst st'. simpl written.
  rewrite console_output_snoc, Hout.
  split.
  - intros Hne. by rewrite decide_False.
  - intros Heq. rewrite decide_True by done.
    unfold ConsoleStream.write, ConsoleStream.switch_level.
    subst p. rewrite !level_is_createPayload. subst rank. simpl.
    split_and!.
    + intros Hr. rewrite Hr. reflexivity.
    + intros Hr. rewrite Hr. reflexivity.
    + intros Hr. rewrite Hr. reflexivity.
    + intros Hr.
      replace (num_or lvl 1 =? 1) with false by (symmetry; apply Z.eqb_neq; lia).
      replace (num_or lvl 1 =? 2) with false by (symmetry; apply Z.eqb_neq; lia).
      replace (num_or lvl 1 =? 3) with false by (symmetry; apply Z.eqb_neq; lia).
      reflexivity.
Qed.

Lemma write_reaches_console_witness :
  ∃ st',
    write svc_state 1%nat 7 (VStr "custom") 42 = Some (st', 1%nat) ∧
    written st' =
      [(consoleStream, createPayload "svc" 7 (VStr "custom") 42)] ∧
    ConsoleStream.console_output (Some []) (written st') = Some [].
Proof.
  destruct (write_reaches_console svc_state 1%nat
              {| name := "svc"; _enabled := VBool true;
                 _stream := IsStream consoleStream; _level := 2 |}
              consoleStream 7 (VStr "custom") 42 []
              eq_refl eq_refl eq_refl eq_refl)
    as (Hw & Hout & _ & Hconsole).
  eexists. split; [exact Hw |]. split; [exact Hout |].
  destruct (Hconsole eq_refl) as (_ & _ & _ & Hdrop).
  apply Hdrop. right. unfold num_or. simpl. lia.
Defined.

End Console_adapter.

(** ** [logData] and the level methods of the earlier iteration *)

Section VariantA_logData.
Import VariantA VariantAProps VariantACalls.




End VariantA_logData.
